(** * mage_ai/data_preparation/models/utils.py

    A shallow embedding of the column transcoding helpers of
    [mage_ai.data_preparation.models.utils] and the properties its
    specification states about them.

    Conventions of the embedding:
    - a [column_types] dict is the list of its [items()], in insertion order;
      a dict has no repeated key, which theorems that need it state as
      [NoDup (column_types.*1)];
    - a row ([pd.Series]) is a finite map from column label to value;
      [row[column]] raises [KeyError] on an absent label;
    - Python exceptions are an explicit [Raise] outcome; the external
      libraries (simplejson, yaml, pandas, polars, [str]) are section
      variables, so every theorem holds for whatever they compute;
    - exceptions are instances of [Exception], the class every handler of
      this module names; interrupts and interpreter exits are outside the
      embedding. *)

From Stdlib Require Import ZArith String Ascii List Lia.
From stdpp Require Import base option list strings pretty gmap sets.

Set Warnings "-register-all,-notation-for-abbreviation".

Open Scope string_scope.
Open Scope Z_scope.

(** ** Python values

    The values a cell of a row holds, as far as the transcoder tells them
    apart: [None], the scalars, a [str], a [list], a [dict] with string
    keys, a [numpy.ndarray], and an object of any other class ([cls]) with
    the text [str] gives for it. *)

Inductive value : Type :=
| VNone
| VBool (b : bool)
| VInt (n : Z)
| VStr (s : string)
| VList (xs : list value)
| VDict (items : list (string * value))
| VNdarray (xs : list value)
| VObject (cls : string) (repr : string).

(** [val is not None] *)
Definition is_not_None (val : value) : bool :=
  match val with VNone => false | _ => true end.

(** [type(val) is dict or type(val) is list]: the structured values a
    JSON-serializable column holds. *)
Definition is_dict_or_list (val : value) : bool :=
  match val with VDict _ | VList _ => true | _ => false end.

(** ** Exceptions and outcomes *)

Inductive exn : Type :=
| KeyError (key : string)
| Exception (cls : string) (msg : string).

Inductive result (A : Type) : Type :=
| Ok (a : A)
| Raise (e : exn).
Arguments Ok {A} a.
Arguments Raise {A} e.

(** Sequencing: the first exception ends the computation.  With these
    instances [x ← m; k] is the statement [x = m] followed by [k]. *)
#[global] Instance result_ret : MRet result := fun _ a => Ok a.
#[global] Instance result_bind : MBind result := fun _ _ k m =>
  match m with
  | Ok a => k a
  | Raise e => Raise e
  end.

(** [for item in items: body], threading the object the body mutates and
    stopping at the first exception. *)
Fixpoint for_items {I S} (body : S → I → result S) (items : list I) (s : S)
  : result S :=
  match items with
  | [] => Ok s
  | item :: rest => s' ← body s item; for_items body rest s'
  end.

(** ** Module constants (lines 16-40) *)

Definition MAX_PARTITION_BYTE_SIZE : Z := 100 * 1024 * 1024.

Definition JSON_SERIALIZABLE_COLUMN_TYPES : gset string := {[ "dict"; "list" ]}.
Definition STRING_SERIALIZABLE_COLUMN_TYPES : gset string := {[ "ObjectId" ]}.
Definition AMBIGUOUS_COLUMN_TYPES : gset string :=
  {[ "mixed-integer"; "complex"; "unknown-array" ]}.
Definition CAST_TYPE_COLUMN_TYPES : gset string :=
  {[ "Int64"; "int64"; "float64" ]}.

Inductive polars_dtype : Type := pl_Float64 | pl_Int64.

Definition POLARS_CAST_TYPE_COLUMN_TYPES : gmap string polars_dtype :=
  {[ "Float64" := pl_Float64; "Int64" := pl_Int64 ]}.

(** [column_type in S] for one of the tag sets *)
Definition tag_in (column_type : string) (S : gset string) : bool :=
  bool_decide (column_type ∈ S).

(** A [column_types] dict as its [items()]. *)
Notation column_types_t := (list (string * string)).
Notation row_t := (gmap string value).

(** ** Transcoding necessity predicates (lines 117-133) *)

Fixpoint any_serialize_tag (items : column_types_t) : bool :=
  match items with
  | [] => false
  | (_, column_type) :: rest =>
      if tag_in column_type JSON_SERIALIZABLE_COLUMN_TYPES
         || tag_in column_type STRING_SERIALIZABLE_COLUMN_TYPES
      then true
      else any_serialize_tag rest
  end.

Definition should_serialize_pandas (column_types : column_types_t) : bool :=
  match column_types with
  | [] => false
  | _ => any_serialize_tag column_types
  end.

Fixpoint any_deserialize_tag (items : column_types_t) : bool :=
  match items with
  | [] => false
  | (_, column_type) :: rest =>
      if tag_in column_type JSON_SERIALIZABLE_COLUMN_TYPES
      then true
      else any_deserialize_tag rest
  end.

Definition should_deserialize_pandas (column_types : column_types_t) : bool :=
  match column_types with
  | [] => false
  | _ => any_deserialize_tag column_types
  end.

(** ** Row transcoder (lines 43-59 and 82-93) *)

(** [row[column]] on a row or a table: [KeyError] on an absent label. *)
Definition getitem {V} (m : gmap string V) (column : string) : result V :=
  match m !! column with
  | Some v => Ok v
  | None => Raise (KeyError column)
  end.

Section RowTranscoder.
(** [simplejson.dumps(val, default=encode_complex, ignore_nan=True,
    use_decimal=True)], [simplejson.loads] and the builtin [str]. *)
Variable simplejson_dumps : value → result string.
Variable simplejson_loads : string → result value.
Variable str : value → result string.

(** One iteration of the loop of [serialize_columns]. *)
Definition serialize_column (row : row_t) (item : string * string)
  : result row_t :=
  let '(column, column_type) := item in
  if tag_in column_type JSON_SERIALIZABLE_COLUMN_TYPES then
    val ← getitem row column;
    if is_not_None val then
      encoded ← simplejson_dumps val;
      mret (<[column := VStr encoded]> row)
    else mret row
  else if tag_in column_type STRING_SERIALIZABLE_COLUMN_TYPES then
    val ← getitem row column;
    if is_not_None val then
      text ← str val;
      mret (<[column := VStr text]> row)
    else mret row
  else mret row.

Definition serialize_columns (row : row_t) (column_types : column_types_t)
  : result row_t :=
  for_items serialize_column column_types row.

(** One iteration of the loop of [deserialize_columns].  A [VStr] is the
    value that is not [None] and whose type is [str]; a [VNdarray] the one
    whose type is [numpy.ndarray], and [list(val)] keeps its elements. *)
Definition deserialize_column (row : row_t) (item : string * string)
  : result row_t :=
  let '(column, column_type) := item in
  if negb (tag_in column_type JSON_SERIALIZABLE_COLUMN_TYPES) then mret row
  else
    val ← getitem row column;
    match val with
    | VStr s =>
        decoded ← simplejson_loads s;
        mret (<[column := decoded]> row)
    | VNdarray xs =>
        if String.eqb column_type "list"
        then mret (<[column := VList xs]> row)
        else mret row
    | _ => mret row
    end.

Definition deserialize_columns (row : row_t) (column_types : column_types_t)
  : result row_t :=
  for_items deserialize_column column_types row.

(** What the two passes need in order to return: every column that the
    table tags as serializable is in the row, and the codec accepts the
    values it is given. *)
Definition dumps_then_loads_ok (val : value) : bool :=
  match simplejson_dumps val with
  | Ok encoded =>
      match simplejson_loads encoded with Ok _ => true | Raise _ => false end
  | Raise _ => false
  end.

Definition column_transcodable (row : row_t) (item : string * string) : bool :=
  let '(column, column_type) := item in
  if tag_in column_type JSON_SERIALIZABLE_COLUMN_TYPES then
    match row !! column with
    | Some val => negb (is_not_None val) || dumps_then_loads_ok val
    | None => false
    end
  else if tag_in column_type STRING_SERIALIZABLE_COLUMN_TYPES then
    match row !! column with
    | Some val =>
        negb (is_not_None val)
        || match str val with Ok _ => true | Raise _ => false end
    | None => false
    end
  else true.

Definition row_transcodable (row : row_t) (column_types : column_types_t)
  : bool :=
  forallb (column_transcodable row) column_types.

End RowTranscoder.

(** ** Column caster (lines 62-79) *)

(** A column of a table: its dtype and its cells. *)
Record series : Type := Series { dtype : string; cells : list value }.

Notation frame_t := (gmap string series).

(** What [traceback.print_exc()] has written so far: one entry per
    exception printed. *)
Notation printed_t := (list exn).

(** [try: body / except Exception: traceback.print_exc()] around a
    statement that assigns [df]: on an exception [df] keeps its value and
    the exception is printed. *)
Definition try_except_print (body : result frame_t)
           (st : frame_t * printed_t) : result (frame_t * printed_t) :=
  match body with
  | Ok df' => Ok (df', st.2)
  | Raise e => Ok (st.1, (st.2 ++ [e])%list)
  end.

Section ColumnCaster.
(** pandas' [Series.astype(dtype)] and the cast of one polars column. *)
Variable astype : series → string → result series.
Variable polars_cast : series → polars_dtype → result series.

(** [df[column] = df[column].astype(column_type)] *)
Definition assign_astype (df : frame_t) (column column_type : string)
  : result frame_t :=
  col ← getitem df column;
  casted ← astype col column_type;
  mret (<[column := casted]> df).

Definition cast_column (st : frame_t * printed_t) (item : string * string)
  : result (frame_t * printed_t) :=
  let '(column, column_type) := item in
  if tag_in column_type CAST_TYPE_COLUMN_TYPES
  then try_except_print (assign_astype st.1 column column_type) st
  else mret st.

(** [cast_column_types(df, column_types)]: the table returned and what
    was printed. *)
Definition cast_column_types (df : frame_t) (column_types : column_types_t)
  : result (frame_t * printed_t) :=
  for_items cast_column column_types (df, []).

(** polars' [df.cast({column: dtype})]: a new table with that column
    cast; an absent column or a failing cast raises. *)
Definition DataFrame_cast (df : frame_t) (column : string)
           (target : polars_dtype) : result frame_t :=
  match df !! column with
  | None => Raise (Exception "ColumnNotFoundError" column)
  | Some col =>
      casted ← polars_cast col target;
      mret (<[column := casted]> df)
  end.

Definition cast_column_polars (st : frame_t * printed_t)
           (item : string * string) : result (frame_t * printed_t) :=
  let '(column, column_type) := item in
  match POLARS_CAST_TYPE_COLUMN_TYPES !! column_type with
  | Some target => try_except_print (DataFrame_cast st.1 column target) st
  | None => mret st
  end.

Definition cast_column_types_polars (df : frame_t)
           (column_types : column_types_t) : result (frame_t * printed_t) :=
  for_items cast_column_polars column_types (df, []).
End ColumnCaster.

(** ** Table partitioner (lines 96-101) *)

(** A dask dataframe: the table it was built from and its partition count. *)
Record dask_frame : Type := DaskFrame { ddf_table : frame_t; npartitions : Z }.

Definition from_pandas (df : frame_t) (n : Z) : dask_frame := DaskFrame df n.

Definition repartition (ddf : dask_frame) (n : Z) : dask_frame :=
  DaskFrame (ddf_table ddf) n.

(** [.sum()] of a series of byte counts *)
Definition sum_bytes (sizes : list Z) : Z := foldr Z.add 0 sizes.

Section TablePartitioner.
(** [memory_usage(deep=True)]: the bytes of the index and of each
    column. *)
Variable memory_usage_deep : frame_t → list Z.

(** [ddf.memory_usage(deep=True).sum().compute()] *)
Definition total_bytes (df : frame_t) : Z := sum_bytes (memory_usage_deep df).

(** Python's [//] on integers is the floor division [Z.div]. *)
Definition dask_from_pandas (df : frame_t) : dask_frame :=
  let ddf := from_pandas df 1 in
  let n := 1 + sum_bytes (memory_usage_deep (ddf_table ddf))
                 `div` MAX_PARTITION_BYTE_SIZE in
  repartition ddf n.
End TablePartitioner.

(** ** Serializability probe (lines 136-142) *)

(** [try: body / except Exception: handler] *)
Definition try_except {A} (body : result A) (handler : exn → result A)
  : result A :=
  match body with
  | Ok a => Ok a
  | Raise e => handler e
  end.

(** [dict(key=value)]: a keyword argument names its key, so the mapping
    has the one key ["key"] whatever the variable [key] holds. *)
Definition dict_key (val : value) : value := VDict [("key", val)].

Section SerializabilityProbe.
(** [yaml.dump] and [yaml.safe_load] *)
Variable yaml_dump : value → result string.
Variable yaml_safe_load : string → result value.

Definition is_yaml_serializable (key : string) (val : value) : result bool :=
  try_except
    (s ← yaml_dump (dict_key val);
     _ ← yaml_safe_load s;
     mret true)
    (fun _ => mret false).

(** Encoding a mapping and decoding it back both succeed. *)
Definition yaml_round_trips (mapping : value) : bool :=
  match yaml_dump mapping with
  | Ok s => match yaml_safe_load s with Ok _ => true | Raise _ => false end
  | Raise _ => false
  end.
End SerializabilityProbe.

(** ** Repository path warning (lines 145-160) *)

(** A warning handed to [warnings.warn]. *)
Record warning : Type :=
  Warning { message : string; category : string; stacklevel : Z }.

Section RepoPathWarning.
(** What a call of [user_project_platform_activated()] gives, and what
    [inspect.stack()[1][3]] gives; either may raise. *)
Variable user_project_platform_activated : result bool.
Variable caller_name : result string.

(** [warn_for_repo_path(repo_path)]: the warnings it issues.  [and] does
    not evaluate its right operand when [repo_path is None] is false. *)
Definition warn_for_repo_path (repo_path : option string)
  : result (list warning) :=
  match repo_path with
  | Some _ => mret []
  | None =>
      activated ← user_project_platform_activated;
      if activated : bool then
        let message :=
          try_except
            (func_name ← caller_name;
             mret ("repo_path argument in " +:+ func_name
                   +:+ " must be provided."))
            (fun _ => mret "repo_path argument must be provided.") in
        text ← message;
        mret [Warning (text +:+ " Some functionalities may not work as expected")
                      "SyntaxWarning" 2]
      else mret []
  end.
End RepoPathWarning.

(** ** What the casters print

    The exception, if any, that the cast of the column an item names
    raises on a table. *)
Definition astype_failure (astype : series → string → result series)
           (df : frame_t) (item : string * string) : option exn :=
  let '(column, column_type) := item in
  if tag_in column_type CAST_TYPE_COLUMN_TYPES then
    match assign_astype astype df column column_type with
    | Raise e => Some e
    | Ok _ => None
    end
  else None.

Definition polars_failure (polars_cast : series → polars_dtype → result series)
           (df : frame_t) (item : string * string) : option exn :=
  let '(column, column_type) := item in
  match POLARS_CAST_TYPE_COLUMN_TYPES !! column_type with
  | Some target =>
      match DataFrame_cast polars_cast df column target with
      | Raise e => Some e
      | Ok _ => None
      end
  | None => None
  end.

(** The attempt of each caster on the cell of a column: [None] when the
    tag is not castable, else the outcome of the cast. *)
Definition astype_attempt (astype : series → string → result series)
           (column column_type : string) (cell : option series)
  : option (result series) :=
  if tag_in column_type CAST_TYPE_COLUMN_TYPES
  then Some (match cell with
             | None => Raise (KeyError column)
             | Some col => astype col column_type
             end)
  else None.

Definition polars_attempt
           (polars_cast : series → polars_dtype → result series)
           (column column_type : string) (cell : option series)
  : option (result series) :=
  match POLARS_CAST_TYPE_COLUMN_TYPES !! column_type with
  | Some target =>
      Some (match cell with
            | None => Raise (Exception "ColumnNotFoundError" column)
            | Some col => polars_cast col target
            end)
  | None => None
  end.

Definition attempt_failure
           (attempt : string → string → option series → option (result series))
           (df : frame_t) (item : string * string) : option exn :=
  match attempt item.1 item.2 (df !! item.1) with
  | Some (Raise e) => Some e
  | _ => None
  end.

(** ** A reference JSON codec

    The theorems below hold for any codec.  To evaluate the transcoder on
    concrete rows, this module gives one: the fragment of JSON with [null],
    booleans, integers, strings of printable characters without escapes,
    arrays and objects, printed with the separators [", "] and [": "] that
    [simplejson.dumps] uses.  Anything else raises. *)
Module ReferenceJson.
Definition dquote : ascii := ascii_of_nat 34.
Definition quoted (s : string) : string :=
  String dquote (s +:+ String dquote EmptyString).

Definition plain_char (c : ascii) : bool :=
  let n := nat_of_ascii c in
  (32 <=? n)%nat && (n <? 127)%nat && negb (n =? 34)%nat && negb (n =? 92)%nat.

Fixpoint plain (s : string) : bool :=
  match s with
  | EmptyString => true
  | String c rest => plain_char c && plain rest
  end.

Definition join (sep : string) (parts : list string) : string :=
  match parts with
  | [] => EmptyString
  | p :: ps => fold_left (fun acc q => acc +:+ sep +:+ q) ps p
  end.

Definition dumps_str (s : string) : result string :=
  if plain s then Ok (quoted s)
  else Raise (Exception "ValueError" "string outside the fragment").

Fixpoint dumps (v : value) : result string :=
  match v with
  | VNone => Ok "null"
  | VBool b => Ok (if b then "true" else "false")
  | VInt n => Ok (pretty n)
  | VStr s => dumps_str s
  | VList xs =>
      parts ← (fix go (xs : list value) : result (list string) :=
                 match xs with
                 | [] => Ok []
                 | x :: rest => p ← dumps x; ps ← go rest; mret (p :: ps)
                 end) xs;
      mret ("[" +:+ join ", " parts +:+ "]")
  | VDict items =>
      parts ← (fix go (items : list (string * value)) : result (list string) :=
                 match items with
                 | [] => Ok []
                 | (k, x) :: rest =>
                     pk ← dumps_str k; p ← dumps x; ps ← go rest;
                     mret ((pk +:+ ": " +:+ p) :: ps)
                 end) items;
      mret ("{" +:+ join ", " parts +:+ "}")
  | VNdarray _ => Raise (Exception "TypeError" "ndarray is not JSON serializable")
  | VObject cls _ => Raise (Exception "TypeError" cls)
  end.

Fixpoint skip_ws (s : string) : string :=
  match s with
  | String " " rest => skip_ws rest
  | _ => s
  end.

Definition digit_of (c : ascii) : option Z :=
  let n := nat_of_ascii c in
  if (48 <=? n)%nat && (n <=? 57)%nat then Some (Z.of_nat n - 48) else None.

Fixpoint take_digits (s : string) (acc : Z) : Z * string :=
  match s with
  | EmptyString => (acc, s)
  | String c rest =>
      match digit_of c with
      | Some d => take_digits rest (10 * acc + d)
      | None => (acc, s)
      end
  end.

(** The characters up to the closing quote, and what follows it. *)
Fixpoint take_string (s : string) : option (string * string) :=
  match s with
  | EmptyString => None
  | String c rest =>
      if Ascii.eqb c dquote then Some (EmptyString, rest)
      else if plain_char c then
        '(body, after) ← take_string rest; Some (String c body, after)
      else None
  end.

Fixpoint strip_prefix (p s : string) : option string :=
  match p, s with
  | EmptyString, _ => Some s
  | String a p', String b s' => if Ascii.eqb a b then strip_prefix p' s' else None
  | _, _ => None
  end.

(** [n] bounds the number of elements still to read. *)
Fixpoint parse_elements (parse : string → option (value * string))
         (n : nat) (s : string) : option (list value * string) :=
  match n with
  | O => None
  | S n =>
      '(v, rest) ← parse s;
      match skip_ws rest with
      | String "," rest' =>
          '(vs, after) ← parse_elements parse n rest'; Some (v :: vs, after)
      | String "]" rest' => Some ([v], rest')
      | _ => None
      end
  end.

Fixpoint parse_members (parse : string → option (value * string))
         (n : nat) (s : string) : option (list (string * value) * string) :=
  match n with
  | O => None
  | S n =>
      match skip_ws s with
      | String c rest =>
          if Ascii.eqb c dquote then
            '(k, rest1) ← take_string rest;
            match skip_ws rest1 with
            | String ":" rest2 =>
                '(v, rest3) ← parse rest2;
                match skip_ws rest3 with
                | String "," rest4 =>
                    '(kvs, after) ← parse_members parse n rest4;
                    Some ((k, v) :: kvs, after)
                | String "}" rest4 => Some ([(k, v)], rest4)
                | _ => None
                end
            | _ => None
            end
          else None
      | EmptyString => None
      end
  end.

(** [fuel] bounds the nesting depth. *)
Fixpoint parse_value (fuel : nat) (s : string) : option (value * string) :=
  match fuel with
  | O => None
  | S fuel =>
      match skip_ws s with
      | EmptyString => None
      | String c rest as s' =>
          if Ascii.eqb c dquote then
            '(body, after) ← take_string rest; Some (VStr body, after)
          else match c with
          | "["%char =>
              match skip_ws rest with
              | String "]" after => Some (VList [], after)
              | _ =>
                  '(vs, after) ← parse_elements (parse_value fuel)
                                  (String.length rest) rest;
                  Some (VList vs, after)
              end
          | "{"%char =>
              match skip_ws rest with
              | String "}" after => Some (VDict [], after)
              | _ =>
                  '(kvs, after) ← parse_members (parse_value fuel)
                                   (String.length rest) rest;
                  Some (VDict kvs, after)
              end
          | "-"%char =>
              match rest with
              | String d _ =>
                  match digit_of d with
                  | Some _ => let '(n, after) := take_digits rest 0 in
                              Some (VInt (- n), after)
                  | None => None
                  end
              | EmptyString => None
              end
          | _ =>
              match digit_of c with
              | Some _ => let '(n, after) := take_digits s' 0 in
                          Some (VInt n, after)
              | None =>
                  match strip_prefix "null" s' with
                  | Some after => Some (VNone, after)
                  | None =>
                  match strip_prefix "true" s' with
                  | Some after => Some (VBool true, after)
                  | None =>
                  match strip_prefix "false" s' with
                  | Some after => Some (VBool false, after)
                  | None => None
                  end end end
              end
          end
      end
  end.

Definition loads (s : string) : result value :=
  match parse_value (String.length s) s with
  | Some (v, rest) =>
      match skip_ws rest with
      | EmptyString => Ok v
      | _ => Raise (Exception "JSONDecodeError" "Extra data")
      end
  | None => Raise (Exception "JSONDecodeError" "Expecting value")
  end.

(** [str] of the values the examples use. *)
Definition str (v : value) : result string :=
  match v with
  | VObject _ repr => Ok repr
  | VStr s => Ok s
  | VInt n => Ok (pretty n)
  | VNone => Ok "None"
  | VBool b => Ok (if b then "True" else "False")
  | _ => Raise (Exception "NotImplementedError" "str outside the fragment")
  end.
End ReferenceJson.

(** A codec that rejects every value: with it, a transcoder that returns
    has called no codec. *)
Module RejectingCodec.
Definition dumps (_ : value) : result string :=
  Raise (Exception "TypeError" "rejected").
Definition loads (_ : string) : result value :=
  Raise (Exception "JSONDecodeError" "rejected").
Definition str (_ : value) : result string :=
  Raise (Exception "TypeError" "rejected").
End RejectingCodec.

(** ** A reference cast

    One cast to evaluate the casters with: an integer or float dtype
    accepts a column of integers and rejects any other cell, as
    [astype] rejects a string that is no number. *)
Module ReferenceCast.
Definition is_int (v : value) : bool :=
  match v with VInt _ => true | _ => false end.

Definition cast_cells (col : series) (target : string) : result series :=
  if forallb is_int (cells col)
  then Ok (Series target (cells col))
  else Raise (Exception "ValueError" "invalid literal").

Definition astype (col : series) (column_type : string) : result series :=
  cast_cells col column_type.

Definition polars_cast (col : series) (target : polars_dtype) : result series :=
  cast_cells col (match target with
                  | pl_Float64 => "Float64"
                  | pl_Int64 => "Int64"
                  end).

Definition table : frame_t :=
  {[ "qty" := Series "object" [VInt 1; VInt 2];
     "price" := Series "object" [VStr "n/a"; VInt 3];
     "name" := Series "object" [VStr "a"; VStr "b"] ]}.

Definition column_types : column_types_t :=
  [("price", "float64"); ("qty", "int64"); ("name", "dict");
   ("gone", "Int64")].

Definition column_types_polars : column_types_t :=
  [("price", "Float64"); ("qty", "Int64"); ("name", "dict");
   ("gone", "Int64")].
End ReferenceCast.

(** ** Missing values

    [float('nan')], what pandas stores for a missing value: an object of
    class [float] whose [str] is ['nan'].  It is not [None]. *)
Definition NaN : value := VObject "float" "nan".

(** [pd.isna(val)] on a cell: [None] or NaN. *)
Definition is_missing (val : value) : bool :=
  match val with
  | VNone => true
  | VObject "float" "nan" => true
  | _ => false
  end.

(** The reference codec with [ignore_nan=True], as [serialize_columns]
    calls [simplejson.dumps]: a NaN is written as [null]. *)
Module IgnoreNanCodec.
Definition dumps (v : value) : result string :=
  match v with
  | VObject "float" "nan" => Ok "null"
  | _ => ReferenceJson.dumps v
  end.
End IgnoreNanCodec.

(** ** Sample tables and rows *)
Module Samples.
(** A table with a tag of each kind. *)
Definition column_types : column_types_t :=
  [("payload", "dict"); ("tags", "list"); ("_id", "ObjectId");
   ("count", "int64"); ("extra", "dict")].

Definition payload : value :=
  VDict [("x", VInt 1); ("y", VList [VBool true; VNone; VStr "z"])].

Definition row : row_t :=
  {[ "payload" := payload;
     "tags" := VList [VStr "a"; VStr "b"];
     "_id" := VObject "ObjectId" "65f0c0ffee";
     "count" := VInt 7;
     "extra" := VNone ]}.

(** A row as it is read back from storage. *)
Definition stored_row : row_t :=
  {[ "payload" := VStr "[1, 2]";
     "tags" := VNdarray [VInt 1; VInt 2];
     "_id" := VStr "65f0c0ffee";
     "count" := VInt 7;
     "extra" := VNone ]}.
End Samples.

(** * Properties *)

(** ** The tag sets *)

Lemma tag_in_spec (column_type : string) (S : gset string) :
  tag_in column_type S = true ↔ column_type ∈ S.
Proof. unfold tag_in. apply bool_decide_eq_true. Qed.

Lemma tag_in_false (column_type : string) (S : gset string) :
  tag_in column_type S = false ↔ column_type ∉ S.
Proof. unfold tag_in. apply bool_decide_eq_false. Qed.

Lemma JSON_tags (tag : string) :
  tag ∈ JSON_SERIALIZABLE_COLUMN_TYPES ↔ tag = "dict" ∨ tag = "list".
Proof. unfold JSON_SERIALIZABLE_COLUMN_TYPES. set_solver. Qed.

Lemma STRING_tags (tag : string) :
  tag ∈ STRING_SERIALIZABLE_COLUMN_TYPES ↔ tag = "ObjectId".
Proof. unfold STRING_SERIALIZABLE_COLUMN_TYPES. set_solver. Qed.

Lemma JSON_STRING_disjoint (tag : string) :
  tag ∈ JSON_SERIALIZABLE_COLUMN_TYPES → tag ∉ STRING_SERIALIZABLE_COLUMN_TYPES.
Proof.
  rewrite JSON_tags, STRING_tags. intros [-> | ->]; discriminate.
Qed.

(** ** Transcoding necessity predicates *)

Lemma any_serialize_tag_iff (items : column_types_t) :
  any_serialize_tag items = true ↔
  ∃ column tag, (column, tag) ∈ items ∧
    tag ∈ JSON_SERIALIZABLE_COLUMN_TYPES ∪ STRING_SERIALIZABLE_COLUMN_TYPES.
Proof.
  induction items as [| [column tag] rest IH]; simpl.
  - split; [discriminate |]. intros (? & ? & Hin & _). inversion Hin.
  - destruct (tag_in tag JSON_SERIALIZABLE_COLUMN_TYPES
              || tag_in tag STRING_SERIALIZABLE_COLUMN_TYPES) eqn:Htag.
    + split; [intros _ | reflexivity].
      exists column, tag. split; [left |].
      apply orb_true_iff in Htag. rewrite !tag_in_spec in Htag.
      apply elem_of_union. exact Htag.
    + apply orb_false_iff in Htag. rewrite !tag_in_false in Htag.
      rewrite IH. split.
      * intros (c & t & Hin & Ht). exists c, t. split; [by right | done].
      * intros (c & t & Hin & Ht). apply elem_of_cons in Hin as [Heq | Hin].
        -- inversion Heq; subst. apply elem_of_union in Ht. tauto.
        -- exists c, t. done.
Qed.

Lemma any_deserialize_tag_iff (items : column_types_t) :
  any_deserialize_tag items = true ↔
  ∃ column tag, (column, tag) ∈ items ∧ tag ∈ JSON_SERIALIZABLE_COLUMN_TYPES.
Proof.
  induction items as [| [column tag] rest IH]; simpl.
  - split; [discriminate |]. intros (? & ? & Hin & _). inversion Hin.
  - destruct (tag_in tag JSON_SERIALIZABLE_COLUMN_TYPES) eqn:Htag.
    + split; [intros _ | reflexivity].
      exists column, tag. split; [left | by apply tag_in_spec].
    + apply tag_in_false in Htag. rewrite IH. split.
      * intros (c & t & Hin & Ht). exists c, t. split; [by right | done].
      * intros (c & t & Hin & Ht). apply elem_of_cons in Hin as [Heq | Hin].
        -- inversion Heq; subst. contradiction.
        -- exists c, t. done.
Qed.

Lemma should_serialize_any (T : column_types_t) :
  should_serialize_pandas T = any_serialize_tag T.
Proof. by destruct T. Qed.

Lemma should_deserialize_any (T : column_types_t) :
  should_deserialize_pandas T = any_deserialize_tag T.
Proof. by destruct T. Qed.

Lemma nonempty_of_elem {A} (x : A) (l : list A) : x ∈ l → l ≠ [].
Proof. intros Hin ->. inversion Hin. Qed.

(** C3.  [should_serialize_pandas T] is true exactly when [T] is not empty
    and some tag of [T] is ["dict"], ["list"] or ["ObjectId"]; it is false
    exactly when [T] is empty or every tag of [T] is outside those sets. *)
Theorem should_serialize_pandas_spec (T : column_types_t) :
  (should_serialize_pandas T = true ↔
     T ≠ [] ∧ ∃ column tag, (column, tag) ∈ T ∧
       (tag ∈ JSON_SERIALIZABLE_COLUMN_TYPES
        ∨ tag ∈ STRING_SERIALIZABLE_COLUMN_TYPES))
  ∧ (should_serialize_pandas T = false ↔
       T = [] ∨ (∀ column tag, (column, tag) ∈ T →
         (tag ∉ JSON_SERIALIZABLE_COLUMN_TYPES)
         ∧ (tag ∉ STRING_SERIALIZABLE_COLUMN_TYPES)))
  ∧ (∀ tag, (tag ∈ JSON_SERIALIZABLE_COLUMN_TYPES
             ∨ tag ∈ STRING_SERIALIZABLE_COLUMN_TYPES)
            ↔ (tag = "dict" ∨ tag = "list" ∨ tag = "ObjectId")).
Proof.
  assert (Htrue : should_serialize_pandas T = true ↔
     T ≠ [] ∧ ∃ column tag, (column, tag) ∈ T ∧
       (tag ∈ JSON_SERIALIZABLE_COLUMN_TYPES
        ∨ tag ∈ STRING_SERIALIZABLE_COLUMN_TYPES)).
  { rewrite should_serialize_any, any_serialize_tag_iff. split.
    - intros (c & t & Hin & Ht). split; [by eapply nonempty_of_elem |].
      exists c, t. by rewrite <- elem_of_union.
    - intros (_ & c & t & Hin & Ht). exists c, t. by rewrite elem_of_union. }
  split; [exact Htrue | split].
  - rewrite <- not_true_iff_false, Htrue. split.
    + intros Hno. destruct T as [| item rest]; [by left | right].
      intros c t Hin. split; intros Ht; apply Hno;
        (split; [discriminate | exists c, t; tauto]).
    + intros [-> | Hall] (Hne & c & t & Hin & Ht); [done |].
      destruct (Hall c t Hin). tauto.
  - intros tag. rewrite JSON_tags, STRING_tags. tauto.
Qed.

(** C4.  [should_deserialize_pandas T] is true exactly when [T] is not
    empty and some tag of [T] is ["dict"] or ["list"]; a table whose tags
    are all string-serializable gives false. *)
Theorem should_deserialize_pandas_spec (T : column_types_t) :
  (should_deserialize_pandas T = true ↔
     T ≠ [] ∧ ∃ column tag, (column, tag) ∈ T ∧
       tag ∈ JSON_SERIALIZABLE_COLUMN_TYPES)
  ∧ (should_deserialize_pandas T = false ↔
       T = [] ∨ (∀ column tag, (column, tag) ∈ T →
         tag ∉ JSON_SERIALIZABLE_COLUMN_TYPES))
  ∧ ((∀ column tag, (column, tag) ∈ T →
        tag ∈ STRING_SERIALIZABLE_COLUMN_TYPES) →
     should_deserialize_pandas T = false)
  ∧ (∀ tag, tag ∈ JSON_SERIALIZABLE_COLUMN_TYPES ↔ tag = "dict" ∨ tag = "list").
Proof.
  assert (Htrue : should_deserialize_pandas T = true ↔
     T ≠ [] ∧ ∃ column tag, (column, tag) ∈ T ∧
       tag ∈ JSON_SERIALIZABLE_COLUMN_TYPES).
  { rewrite should_deserialize_any, any_deserialize_tag_iff. split.
    - intros (c & t & Hin & Ht). split; [by eapply nonempty_of_elem |].
      by exists c, t.
    - intros (_ & c & t & Hin & Ht). by exists c, t. }
  assert (Hfalse : should_deserialize_pandas T = false ↔
       T = [] ∨ ∀ column tag, (column, tag) ∈ T →
         tag ∉ JSON_SERIALIZABLE_COLUMN_TYPES).
  { rewrite <- not_true_iff_false, Htrue. split.
    - intros Hno. destruct T as [| item rest]; [by left | right].
      intros c t Hin Ht. apply Hno.
      split; [discriminate | by exists c, t].
    - intros [-> | Hall] (Hne & c & t & Hin & Ht); [done |].
      by apply (Hall c t Hin). }
  split; [exact Htrue | split; [exact Hfalse | split]].
  - intros Hall. apply Hfalse. right. intros c t Hin Ht.
    by apply (JSON_STRING_disjoint t Ht), (Hall c t).
  - apply JSON_tags.
Qed.

(** C9.  Whenever [should_deserialize_pandas] holds of a table,
    [should_serialize_pandas] holds of it too. *)
Theorem should_deserialize_implies_should_serialize (T : column_types_t) :
  should_deserialize_pandas T = true → should_serialize_pandas T = true.
Proof.
  rewrite should_deserialize_any, should_serialize_any.
  rewrite any_deserialize_tag_iff, any_serialize_tag_iff.
  intros (c & t & Hin & Ht). exists c, t. split; [done |].
  apply elem_of_union. by left.
Qed.

Lemma should_deserialize_implies_should_serialize_witness :
  should_deserialize_pandas [("a", "int64"); ("b", "list")] = true
  ∧ should_serialize_pandas [("a", "int64"); ("b", "list")] = true.
Proof.
  split; [vm_compute; reflexivity |].
  apply (should_deserialize_implies_should_serialize
           [("a", "int64"); ("b", "list")]).
  vm_compute; reflexivity.
Defined.

(** ** Loops over the items of a dict

    Each loop body of this module reads and writes one column of the
    object it mutates: the column its item names.  [view] is that object's
    column map. *)

Lemma bind_Ok {A B} (m : result A) (k : A → result B) (b : B) :
  (a ← m; k a) = Ok b ↔ ∃ a, m = Ok a ∧ k a = Ok b.
Proof.
  destruct m as [a | e]; simpl.
  - split; [intros H; by exists a | by intros (a' & [= <-] & H)].
  - split; [discriminate | by intros (a' & [=] & _)].
Qed.

Lemma getitem_Ok {V} (m : gmap string V) (column : string) (v : V) :
  getitem m column = Ok v ↔ m !! column = Some v.
Proof.
  unfold getitem. destruct (m !! column); split; congruence.
Qed.

Section ForItemsLocal.
Context {S V : Type}.
Variable view : S → gmap string V.
Variable body : S → string * string → result S.

Hypothesis body_frame : ∀ s column tag s' c,
  body s (column, tag) = Ok s' → c ≠ column → view s' !! c = view s !! c.
Hypothesis body_local : ∀ s1 s2 column tag s1',
  view s1 !! column = view s2 !! column →
  body s1 (column, tag) = Ok s1' →
  ∃ s2', body s2 (column, tag) = Ok s2'
         ∧ view s2' !! column = view s1' !! column.

(** A column the dict does not name is left as it was. *)
Lemma for_items_frame (items : column_types_t) (s s' : S) (c : string) :
  c ∉ items.*1 → for_items body items s = Ok s' →
  view s' !! c = view s !! c.
Proof.
  revert s. induction items as [| [column tag] rest IH]; intros s Hc; simpl.
  - by intros [= ->].
  - rewrite bind_Ok. intros (s1 & Hstep & Hrest).
    rewrite fmap_cons in Hc. apply not_elem_of_cons in Hc as [Hne Hc].
    rewrite (IH s1 Hc Hrest). by apply (body_frame s column tag).
Qed.

(** A column the dict names ends as the body alone leaves it. *)
Lemma for_items_hit (items : column_types_t) (s s' : S) (column tag : string) :
  NoDup items.*1 → (column, tag) ∈ items → for_items body items s = Ok s' →
  ∃ r, body s (column, tag) = Ok r ∧ view s' !! column = view r !! column.
Proof.
  revert s. induction items as [| [c t] rest IH]; intros s Hnd Hin; simpl.
  - inversion Hin.
  - rewrite bind_Ok. intros (s1 & Hstep & Hrest).
    rewrite fmap_cons in Hnd. apply NoDup_cons in Hnd as [Hfresh Hnd].
    apply elem_of_cons in Hin as [[= -> ->] | Hin].
    + exists s1. split; [done |]. by apply (for_items_frame rest).
    + assert (Hne : column ≠ c).
      { intros ->. apply Hfresh. apply list_elem_of_fmap. by exists (c, tag). }
      destruct (IH s1 Hnd Hin Hrest) as (r1 & Hbody1 & Hview).
      assert (Heq : view s1 !! column = view s !! column)
        by (by apply (body_frame s c t)).
      destruct (body_local s1 s column tag r1 Heq Hbody1) as (r & Hbody & Hr).
      exists r. split; [done |]. by rewrite Hview, Hr.
Qed.

(** The loop returns when the body returns on every item, taken alone. *)
Lemma for_items_returns (items : column_types_t) (s : S) :
  NoDup items.*1 →
  (∀ item, item ∈ items → ∃ r, body s item = Ok r) →
  ∃ s', for_items body items s = Ok s'.
Proof.
  revert s. induction items as [| [c t] rest IH]; intros s Hnd Hall; simpl.
  - by exists s.
  - rewrite fmap_cons in Hnd. apply NoDup_cons in Hnd as [Hfresh Hnd].
    destruct (Hall (c, t)) as (s1 & Hstep); [left |].
    rewrite Hstep. simpl. apply IH; [done |].
    intros [column tag] Hin.
    assert (Hne : column ≠ c).
    { intros ->. apply Hfresh. apply list_elem_of_fmap. by exists (c, tag). }
    destruct (Hall (column, tag)) as (r & Hbody); [by right |].
    assert (Heq : view s !! column = view s1 !! column)
      by (symmetry; by apply (body_frame s c t)).
    destruct (body_local s s1 column tag r Heq Hbody) as (r1 & Hbody1 & _).
    by exists r1.
Qed.

(** Conversely each item's body returned on the object as it first was. *)
Lemma for_items_returned (items : column_types_t) (s s' : S) :
  NoDup items.*1 → for_items body items s = Ok s' →
  ∀ item, item ∈ items → ∃ r, body s item = Ok r.
Proof.
  intros Hnd Hrun [column tag] Hin.
  destruct (for_items_hit items s s' column tag Hnd Hin Hrun) as (r & Hr & _).
  by exists r.
Qed.
End ForItemsLocal.

(** ** Row transcoder *)

Section RowTranscoderFacts.
Variable simplejson_dumps : value → result string.
Variable simplejson_loads : string → result value.
Variable str : value → result string.

(** What one iteration of [serialize_columns] does, by the tag and the
    value of its column. *)
Lemma serialize_column_unfold (row : row_t) (column tag : string) :
  serialize_column simplejson_dumps str row (column, tag) =
  if tag_in tag JSON_SERIALIZABLE_COLUMN_TYPES then
    match row !! column with
    | None => Raise (KeyError column)
    | Some VNone => Ok row
    | Some val =>
        match simplejson_dumps val with
        | Ok encoded => Ok (<[column := VStr encoded]> row)
        | Raise e => Raise e
        end
    end
  else if tag_in tag STRING_SERIALIZABLE_COLUMN_TYPES then
    match row !! column with
    | None => Raise (KeyError column)
    | Some VNone => Ok row
    | Some val =>
        match str val with
        | Ok text => Ok (<[column := VStr text]> row)
        | Raise e => Raise e
        end
    end
  else Ok row.
Proof.
  unfold serialize_column, getitem.
  destruct (tag_in tag JSON_SERIALIZABLE_COLUMN_TYPES);
    [| destruct (tag_in tag STRING_SERIALIZABLE_COLUMN_TYPES)];
    try reflexivity;
    destruct (row !! column) as [[] |]; reflexivity.
Qed.

Lemma deserialize_column_unfold (row : row_t) (column tag : string) :
  deserialize_column simplejson_loads row (column, tag) =
  if tag_in tag JSON_SERIALIZABLE_COLUMN_TYPES then
    match row !! column with
    | None => Raise (KeyError column)
    | Some (VStr s) =>
        match simplejson_loads s with
        | Ok decoded => Ok (<[column := decoded]> row)
        | Raise e => Raise e
        end
    | Some (VNdarray xs) =>
        if String.eqb tag "list" then Ok (<[column := VList xs]> row)
        else Ok row
    | Some _ => Ok row
    end
  else Ok row.
Proof.
  unfold deserialize_column, getitem.
  destruct (tag_in tag JSON_SERIALIZABLE_COLUMN_TYPES); simpl;
    [| reflexivity].
  destruct (row !! column) as [[] |]; reflexivity.
Qed.

Lemma serialize_columns_cons (row : row_t) (item : string * string)
      (rest : column_types_t) :
  serialize_columns simplejson_dumps str row (item :: rest) =
  row' ← serialize_column simplejson_dumps str row item;
  serialize_columns simplejson_dumps str row' rest.
Proof. reflexivity. Qed.

Lemma deserialize_columns_cons (row : row_t) (item : string * string)
      (rest : column_types_t) :
  deserialize_columns simplejson_loads row (item :: rest) =
  row' ← deserialize_column simplejson_loads row item;
  deserialize_columns simplejson_loads row' rest.
Proof. reflexivity. Qed.

Notation serialize_column := (serialize_column simplejson_dumps str).
Notation serialize_columns := (serialize_columns simplejson_dumps str).
Notation deserialize_column := (deserialize_column simplejson_loads).
Notation deserialize_columns := (deserialize_columns simplejson_loads).
Notation row_transcodable :=
  (row_transcodable simplejson_dumps simplejson_loads str).
Notation column_transcodable :=
  (column_transcodable simplejson_dumps simplejson_loads str).

Ltac split_column_cases :=
  repeat match goal with
  | |- context [if ?b then _ else _] => destruct b eqn:?
  | |- context [match ?x !! ?k with _ => _ end] => destruct (x !! k) eqn:?
  | |- context [match ?v with VNone => _ | _ => _ end] => destruct v eqn:?
  | |- context [match ?r with Ok _ => _ | Raise _ => _ end] =>
      destruct r eqn:?
  end.

Lemma serialize_column_frame (s : row_t) (column tag : string) (s' : row_t)
      (c : string) :
  serialize_column s (column, tag) = Ok s' → c ≠ column → s' !! c = s !! c.
Proof.
  rewrite serialize_column_unfold. intros Hrun Hne. revert Hrun.
  split_column_cases; intros [= <-]; try reflexivity;
    by rewrite lookup_insert_ne.
Qed.

Lemma deserialize_column_frame (s : row_t) (column tag : string) (s' : row_t)
      (c : string) :
  deserialize_column s (column, tag) = Ok s' → c ≠ column →
  s' !! c = s !! c.
Proof.
  rewrite deserialize_column_unfold. intros Hrun Hne. revert Hrun.
  split_column_cases; intros [= <-]; try reflexivity;
    by rewrite lookup_insert_ne.
Qed.

Lemma serialize_column_local (s1 s2 : row_t) (column tag : string)
      (s1' : row_t) :
  s1 !! column = s2 !! column → serialize_column s1 (column, tag) = Ok s1' →
  ∃ s2', serialize_column s2 (column, tag) = Ok s2'
         ∧ s2' !! column = s1' !! column.
Proof.
  rewrite !serialize_column_unfold. intros Heq. rewrite <- Heq.
  split_column_cases; intros [= <-]; eexists; (split; [reflexivity |]);
    rewrite ?lookup_insert_eq; congruence.
Qed.

Lemma deserialize_column_local (s1 s2 : row_t) (column tag : string)
      (s1' : row_t) :
  s1 !! column = s2 !! column → deserialize_column s1 (column, tag) = Ok s1' →
  ∃ s2', deserialize_column s2 (column, tag) = Ok s2'
         ∧ s2' !! column = s1' !! column.
Proof.
  rewrite !deserialize_column_unfold. intros Heq. rewrite <- Heq.
  split_column_cases; intros [= <-]; eexists; (split; [reflexivity |]);
    rewrite ?lookup_insert_eq; congruence.
Qed.
(** A [None] is left where it is by one iteration of either loop. *)
Lemma serialize_column_None (row : row_t) (column tag : string) :
  row !! column = Some VNone → serialize_column row (column, tag) = Ok row.
Proof.
  intros Hnone. rewrite serialize_column_unfold, Hnone.
  by split_column_cases.
Qed.

Lemma deserialize_column_None (row : row_t) (column tag : string) :
  row !! column = Some VNone → deserialize_column row (column, tag) = Ok row.
Proof.
  intros Hnone. rewrite deserialize_column_unfold, Hnone.
  by split_column_cases.
Qed.

Lemma serialize_columns_keep_None (T : column_types_t) (R R' : row_t)
      (c : string) :
  R !! c = Some VNone → serialize_columns R T = Ok R' → R' !! c = Some VNone.
Proof.
  revert R. induction T as [| [column tag] rest IH]; intros R Hnone.
  - by intros [= <-].
  - rewrite serialize_columns_cons, bind_Ok.
    intros (R1 & Hstep & Hrest). apply (IH R1); [| exact Hrest].
    destruct (decide (c = column)) as [-> | Hne].
    + rewrite serialize_column_None in Hstep by done. congruence.
    + by rewrite (serialize_column_frame R column tag R1 c Hstep Hne).
Qed.

Lemma deserialize_columns_keep_None (T : column_types_t) (R R' : row_t)
      (c : string) :
  R !! c = Some VNone → deserialize_columns R T = Ok R' →
  R' !! c = Some VNone.
Proof.
  revert R. induction T as [| [column tag] rest IH]; intros R Hnone.
  - by intros [= <-].
  - rewrite deserialize_columns_cons, bind_Ok.
    intros (R1 & Hstep & Hrest). apply (IH R1); [| exact Hrest].
    destruct (decide (c = column)) as [-> | Hne].
    + rewrite deserialize_column_None in Hstep by done. congruence.
    + by rewrite (deserialize_column_frame R column tag R1 c Hstep Hne).
Qed.

(** A row whose named columns all hold [None] is returned as it is. *)
Lemma serialize_columns_all_None (T : column_types_t) (R : row_t) :
  (∀ column tag, (column, tag) ∈ T → R !! column = Some VNone) →
  serialize_columns R T = Ok R.
Proof.
  induction T as [| [column tag] rest IH]; intros Hall; [reflexivity |].
  rewrite serialize_columns_cons, serialize_column_None
    by (apply (Hall column tag); left).
  simpl. apply IH. intros c t Hin. apply (Hall c t). by right.
Qed.

Lemma deserialize_columns_all_None (T : column_types_t) (R : row_t) :
  (∀ column tag, (column, tag) ∈ T → R !! column = Some VNone) →
  deserialize_columns R T = Ok R.
Proof.
  induction T as [| [column tag] rest IH]; intros Hall; [reflexivity |].
  rewrite deserialize_columns_cons, deserialize_column_None
    by (apply (Hall column tag); left).
  simpl. apply IH. intros c t Hin. apply (Hall c t). by right.
Qed.
(** The loops, column by column. *)
Lemma serialize_columns_hit (T : column_types_t) (R R' : row_t)
      (column tag : string) :
  NoDup T.*1 → (column, tag) ∈ T → serialize_columns R T = Ok R' →
  ∃ r, serialize_column R (column, tag) = Ok r ∧ R' !! column = r !! column.
Proof.
  apply (for_items_hit (λ s : row_t, s) serialize_column
           serialize_column_frame serialize_column_local).
Qed.

Lemma deserialize_columns_hit (T : column_types_t) (R R' : row_t)
      (column tag : string) :
  NoDup T.*1 → (column, tag) ∈ T → deserialize_columns R T = Ok R' →
  ∃ r, deserialize_column R (column, tag) = Ok r
       ∧ R' !! column = r !! column.
Proof.
  apply (for_items_hit (λ s : row_t, s) deserialize_column
           deserialize_column_frame deserialize_column_local).
Qed.

Lemma serialize_columns_frame (T : column_types_t) (R R' : row_t)
      (c : string) :
  c ∉ T.*1 → serialize_columns R T = Ok R' → R' !! c = R !! c.
Proof.
  apply (for_items_frame (λ s : row_t, s) serialize_column
           serialize_column_frame).
Qed.

Lemma deserialize_columns_frame (T : column_types_t) (R R' : row_t)
      (c : string) :
  c ∉ T.*1 → deserialize_columns R T = Ok R' → R' !! c = R !! c.
Proof.
  apply (for_items_frame (λ s : row_t, s) deserialize_column
           deserialize_column_frame).
Qed.

Lemma deserialize_columns_returns (T : column_types_t) (R : row_t) :
  NoDup T.*1 →
  (∀ item, item ∈ T → ∃ r, deserialize_column R item = Ok r) →
  ∃ R', deserialize_columns R T = Ok R'.
Proof.
  apply (for_items_returns (λ s : row_t, s) deserialize_column
           deserialize_column_frame deserialize_column_local).
Qed.

Lemma serialize_columns_returns (T : column_types_t) (R : row_t) :
  NoDup T.*1 →
  (∀ item, item ∈ T → ∃ r, serialize_column R item = Ok r) →
  ∃ R', serialize_columns R T = Ok R'.
Proof.
  apply (for_items_returns (λ s : row_t, s) serialize_column
           serialize_column_frame serialize_column_local).
Qed.

(** A column with a JSON tag, after [serialize_columns]: the encoding of
    its value, unless the value is [None]. *)
Lemma serialize_columns_json (T : column_types_t) (R R' : row_t)
      (column tag : string) (val : value) :
  NoDup T.*1 → (column, tag) ∈ T → tag ∈ JSON_SERIALIZABLE_COLUMN_TYPES →
  R !! column = Some val → serialize_columns R T = Ok R' →
  if is_not_None val
  then ∃ encoded, simplejson_dumps val = Ok encoded
                  ∧ R' !! column = Some (VStr encoded)
  else R' !! column = Some VNone.
Proof.
  intros Hnd Hin Htag Hval Hrun.
  destruct (serialize_columns_hit T R R' column tag Hnd Hin Hrun)
    as (r & Hstep & ->).
  apply tag_in_spec in Htag.
  rewrite serialize_column_unfold, Htag, Hval in Hstep.
  destruct val; simpl;
    try (destruct (simplejson_dumps _) as [encoded |] eqn:Hd; [| done];
         injection Hstep as <-; exists encoded;
         by rewrite lookup_insert_eq).
  injection Hstep as <-. exact Hval.
Qed.

(** A column with a JSON tag, after [deserialize_columns]. *)
Lemma deserialize_columns_json (T : column_types_t) (R R' : row_t)
      (column tag : string) (val : value) :
  NoDup T.*1 → (column, tag) ∈ T → tag ∈ JSON_SERIALIZABLE_COLUMN_TYPES →
  R !! column = Some val → deserialize_columns R T = Ok R' →
  match val with
  | VStr s => ∃ decoded, simplejson_loads s = Ok decoded
                         ∧ R' !! column = Some decoded
  | VNdarray xs =>
      R' !! column = Some (if String.eqb tag "list" then VList xs else val)
  | _ => R' !! column = Some val
  end.
Proof.
  intros Hnd Hin Htag Hval Hrun.
  destruct (deserialize_columns_hit T R R' column tag Hnd Hin Hrun)
    as (r & Hstep & ->).
  apply tag_in_spec in Htag.
  rewrite deserialize_column_unfold, Htag, Hval in Hstep.
  destruct val; try (injection Hstep as <-; exact Hval).
  - destruct (simplejson_loads s) as [decoded |] eqn:Hl; [| done].
    injection Hstep as <-. exists decoded. by rewrite lookup_insert_eq.
  - destruct (String.eqb tag "list"); injection Hstep as <-;
      [by rewrite lookup_insert_eq | exact Hval].
Qed.

(** A column whose tag is not a JSON tag is not deserialized. *)
Lemma deserialize_columns_other_tag (T : column_types_t) (R R' : row_t)
      (column tag : string) :
  NoDup T.*1 → (column, tag) ∈ T → tag ∉ JSON_SERIALIZABLE_COLUMN_TYPES →
  deserialize_columns R T = Ok R' → R' !! column = R !! column.
Proof.
  intros Hnd Hin Htag Hrun.
  destruct (deserialize_columns_hit T R R' column tag Hnd Hin Hrun)
    as (r & Hstep & ->).
  apply tag_in_false in Htag.
  rewrite deserialize_column_unfold, Htag in Hstep. by injection Hstep as <-.
Qed.
(** When [deserialize_columns] returns: every column with a JSON tag is
    in the row, and each string among them decodes. *)
Lemma deserialize_columns_returns_iff (T : column_types_t) (R : row_t) :
  NoDup T.*1 →
  ((∃ R', deserialize_columns R T = Ok R') ↔
   ∀ column tag, (column, tag) ∈ T → tag ∈ JSON_SERIALIZABLE_COLUMN_TYPES →
     ∃ val, R !! column = Some val
            ∧ ∀ s, val = VStr s → ∃ decoded, simplejson_loads s = Ok decoded).
Proof.
  intros Hnd. split.
  - intros (R' & Hrun) column tag Hin Htag.
    destruct (deserialize_columns_hit T R R' column tag Hnd Hin Hrun)
      as (r & Hstep & _).
    apply tag_in_spec in Htag.
    rewrite deserialize_column_unfold, Htag in Hstep.
    destruct (R !! column) as [val |]; [| done].
    exists val. split; [done |]. intros s ->.
    destruct (simplejson_loads s) as [decoded |]; [by exists decoded | done].
  - intros Hall. apply deserialize_columns_returns; [done |].
    intros [column tag] Hin. rewrite deserialize_column_unfold.
    destruct (tag_in tag JSON_SERIALIZABLE_COLUMN_TYPES) eqn:Htag;
      [| by eexists].
    apply tag_in_spec in Htag.
    destruct (Hall column tag Hin Htag) as (val & -> & Hstr).
    destruct val; try by eexists.
    + destruct (Hstr s eq_refl) as (decoded & ->). by eexists.
    + destruct (String.eqb tag "list"); by eexists.
Qed.

Lemma column_transcodable_serializes (R : row_t) (item : string * string) :
  column_transcodable R item = true → ∃ r, serialize_column R item = Ok r.
Proof.
  destruct item as [column tag]. unfold column_transcodable.
  rewrite serialize_column_unfold.
  destruct (tag_in tag JSON_SERIALIZABLE_COLUMN_TYPES);
    [| destruct (tag_in tag STRING_SERIALIZABLE_COLUMN_TYPES)];
    [| | by eexists].
  - destruct (R !! column) as [val |]; [| done]. unfold dumps_then_loads_ok.
    intros Hok.
    destruct val; simpl in Hok; try (by exists R);
      match goal with
      | |- context [simplejson_dumps ?v] =>
          destruct (simplejson_dumps v) as [encoded |];
            [by exists (<[column := VStr encoded]> R) | done]
      end.
  - destruct (R !! column) as [val |]; [| done].
    intros Hok.
    destruct val; simpl in Hok; try (by exists R);
      match goal with
      | |- context [str ?v] =>
          destruct (str v) as [text |];
            [by exists (<[column := VStr text]> R) | done]
      end.
Qed.

(** When the two passes, one after the other, return. *)
Lemma transcode_returns_iff (T : column_types_t) (R : row_t) :
  NoDup T.*1 →
  ((∃ R1 R2, serialize_columns R T = Ok R1
             ∧ deserialize_columns R1 T = Ok R2) ↔
   row_transcodable R T = true).
Proof.
  intros Hnd. unfold row_transcodable. rewrite forallb_forall.
  split.
  - intros (R1 & R2 & Hser & Hde) [column tag] Hin.
    apply list_elem_of_In in Hin.
    destruct (serialize_columns_hit T R R1 column tag Hnd Hin Hser)
      as (r & Hstep & Hr).
    destruct (deserialize_columns_hit T R1 R2 column tag Hnd Hin Hde)
      as (r2 & Hstep2 & _).
    rewrite serialize_column_unfold in Hstep.
    rewrite deserialize_column_unfold, Hr in Hstep2.
    unfold column_transcodable, dumps_then_loads_ok.
    destruct (tag_in tag JSON_SERIALIZABLE_COLUMN_TYPES);
      [| destruct (tag_in tag STRING_SERIALIZABLE_COLUMN_TYPES)];
      [| | done].
    + destruct (R !! column) as [val |]; [| done].
      destruct val; simpl; try done;
        (destruct (simplejson_dumps _) as [encoded |]; [| done]);
        injection Hstep as <-; rewrite lookup_insert_eq in Hstep2;
        by destruct (simplejson_loads encoded).
    + destruct (R !! column) as [val |]; [| done].
      destruct val; simpl; try done; by destruct (str _).
  - intros Hall.
    destruct (serialize_columns_returns T R Hnd) as (R1 & Hser).
    { intros item Hin. apply column_transcodable_serializes.
      by apply Hall, list_elem_of_In. }
    exists R1.
    destruct (deserialize_columns_returns T R1 Hnd) as (R2 & Hde);
      [| by exists R2].
    intros [column tag] Hin.
    specialize (Hall _ (proj1 (list_elem_of_In _ _) Hin)).
    destruct (serialize_columns_hit T R R1 column tag Hnd Hin Hser)
      as (r & Hstep & Hr).
    rewrite serialize_column_unfold in Hstep.
    rewrite deserialize_column_unfold, Hr.
    unfold column_transcodable, dumps_then_loads_ok in Hall.
    destruct (tag_in tag JSON_SERIALIZABLE_COLUMN_TYPES); [| by eexists].
    destruct (R !! column) as [val |] eqn:Hval; [| done].
    destruct val; simpl in Hall;
      try (injection Hstep as <-; rewrite Hval; by eexists);
      (destruct (simplejson_dumps _) as [encoded |]; [| done]);
      injection Hstep as <-; rewrite lookup_insert_eq;
      (destruct (simplejson_loads encoded); [by eexists | done]).
Qed.
End RowTranscoderFacts.

(** [serialize_columns] applies its codec to no [None]: two codecs that
    agree on every other value give the same outcome. *)
Lemma serialize_columns_ext
      (dumps dumps' : value → result string) (str str' : value → result string)
      (T : column_types_t) (R : row_t) :
  (∀ v, is_not_None v = true → dumps' v = dumps v ∧ str' v = str v) →
  serialize_columns dumps' str' R T = serialize_columns dumps str R T.
Proof.
  intros Hagree. revert R. induction T as [| [column tag] rest IH]; intros R.
  - reflexivity.
  - rewrite !serialize_columns_cons.
    assert (Hstep : serialize_column dumps' str' R (column, tag)
                    = serialize_column dumps str R (column, tag)).
    { rewrite !serialize_column_unfold.
      destruct (tag_in tag JSON_SERIALIZABLE_COLUMN_TYPES);
        [| destruct (tag_in tag STRING_SERIALIZABLE_COLUMN_TYPES)];
        [| | reflexivity];
        (destruct (R !! column) as [val |]; [| reflexivity]);
        destruct val; try reflexivity;
        match goal with
        | |- context [dumps' ?v] => by destruct (Hagree v eq_refl) as [-> _]
        | |- context [str' ?v] => by destruct (Hagree v eq_refl) as [_ ->]
        end. }
    rewrite Hstep. destruct (serialize_column dumps str R (column, tag)); simpl;
      [apply IH | reflexivity].
Qed.

(** A [None] is passed through untouched by [serialize_columns] and by
    [deserialize_columns], whatever the tag of its column: the returned row
    holds [None] in that column; a row whose named columns are all [None]
    is returned as it is, whatever the codec does;
    [serialize_columns({"c": None}, {"c": "dict"})] is [{"c": None}], and
    the same for [deserialize_columns]; and the outcome of
    [serialize_columns] does not depend on what the codec does on [None]. *)
Theorem None_is_passed_through
        (simplejson_dumps : value → result string)
        (simplejson_loads : string → result value)
        (str : value → result string)
        (T : column_types_t) (R : row_t) :
  (∀ c R', R !! c = Some VNone →
     serialize_columns simplejson_dumps str R T = Ok R' →
     R' !! c = Some VNone)
  ∧ (∀ c R', R !! c = Some VNone →
       deserialize_columns simplejson_loads R T = Ok R' →
       R' !! c = Some VNone)
  ∧ ((∀ c tag, (c, tag) ∈ T → R !! c = Some VNone) →
     serialize_columns simplejson_dumps str R T = Ok R
     ∧ deserialize_columns simplejson_loads R T = Ok R)
  ∧ (serialize_columns simplejson_dumps str {[ "c" := VNone ]} [("c", "dict")]
       = Ok {[ "c" := VNone ]}
     ∧ deserialize_columns simplejson_loads {[ "c" := VNone ]} [("c", "dict")]
       = Ok {[ "c" := VNone ]})
  ∧ (∀ dumps' str',
       (∀ v, is_not_None v = true →
          dumps' v = simplejson_dumps v ∧ str' v = str v) →
       serialize_columns dumps' str' R T
       = serialize_columns simplejson_dumps str R T).
Proof.
  split; [| split; [| split; [| split]]].
  - intros c R' Hnone Hrun.
    by apply (serialize_columns_keep_None simplejson_dumps str T R R' c).
  - intros c R' Hnone Hrun.
    by apply (deserialize_columns_keep_None simplejson_loads T R R' c).
  - intros Hall. split.
    + by apply serialize_columns_all_None.
    + by apply deserialize_columns_all_None.
  - split.
    + apply serialize_columns_all_None. intros c tag Hin.
      apply list_elem_of_singleton in Hin as [= -> ->].
      apply lookup_singleton_eq.
    + apply deserialize_columns_all_None. intros c tag Hin.
      apply list_elem_of_singleton in Hin as [= -> ->].
      apply lookup_singleton_eq.
  - intros dumps' str' Hagree. by apply serialize_columns_ext.
Qed.

(** With a codec that rejects every value, a row of [None]s is returned
    as it is, and any other value in a serializable column raises. *)
Example None_needs_no_codec :
  serialize_columns RejectingCodec.dumps RejectingCodec.str
    {[ "c" := VNone; "d" := VNone ]} [("c", "dict"); ("d", "ObjectId")]
  = Ok {[ "c" := VNone; "d" := VNone ]}
  ∧ deserialize_columns RejectingCodec.loads
      {[ "c" := VNone; "d" := VNone ]} [("c", "dict"); ("d", "ObjectId")]
    = Ok {[ "c" := VNone; "d" := VNone ]}
  ∧ serialize_columns RejectingCodec.dumps RejectingCodec.str
      {[ "c" := VNone; "d" := VInt 1 ]} [("c", "dict"); ("d", "ObjectId")]
    = Raise (Exception "TypeError" "rejected").
Proof. vm_compute. repeat split. Qed.

(** [deserialize_columns] decodes strings and converts arrays: a NaN is
    neither, and stays. *)
Lemma deserialize_columns_keep_NaN (loads : string → result value)
      (T : column_types_t) (R R' : row_t) (c : string) :
  R !! c = Some NaN → deserialize_columns loads R T = Ok R' →
  R' !! c = Some NaN.
Proof.
  revert R. induction T as [| [column tag] rest IH]; intros R Hnan.
  - by intros [= <-].
  - rewrite deserialize_columns_cons, bind_Ok.
    intros (R1 & Hstep & Hrest). apply (IH R1); [| exact Hrest].
    destruct (decide (c = column)) as [-> | Hne].
    + rewrite deserialize_column_unfold, Hnan in Hstep.
      destruct (tag_in tag JSON_SERIALIZABLE_COLUMN_TYPES);
        injection Hstep as <-; exact Hnan.
    + by rewrite (deserialize_column_frame loads R column tag R1 c Hstep Hne).
Qed.

(** What [serialize_columns] does with a one-column row, for a value that
    is not [None]: the encoder is called on it. *)
Lemma serialize_columns_one_column (dumps str : value → result string)
      (c tag : string) (val : value) :
  is_not_None val = true →
  serialize_columns dumps str {[ c := val ]} [(c, tag)]
  = if tag_in tag JSON_SERIALIZABLE_COLUMN_TYPES
    then encoded ← dumps val; mret {[ c := VStr encoded ]}
    else if tag_in tag STRING_SERIALIZABLE_COLUMN_TYPES
         then text ← str val; mret {[ c := VStr text ]}
         else mret {[ c := val ]}.
Proof.
  intros Hnn. rewrite serialize_columns_cons, serialize_column_unfold.
  rewrite lookup_singleton_eq.
  destruct (tag_in tag JSON_SERIALIZABLE_COLUMN_TYPES);
    [| destruct (tag_in tag STRING_SERIALIZABLE_COLUMN_TYPES)];
    [| | reflexivity];
    destruct val; try discriminate Hnn;
    match goal with
    | |- context [match ?r with Ok _ => _ | Raise _ => _ end] =>
        destruct r; simpl; [by rewrite insert_singleton_eq | reflexivity]
    end.
Qed.



(** C8.  [deserialize_columns] on a table [T] without repeated column:
    it returns exactly when every column with a JSON tag is in the row and
    each string among them decodes; and in the row it returns, a string is
    decoded in the columns whose tag is a JSON tag and only there, a numpy
    array becomes a list under the tag ["list"] and only there, any other
    value (structured or [None]) is unchanged, and a column tagged
    ["ObjectId"], or with any other tag, or not named by [T], is
    unchanged. *)
Theorem deserialize_columns_spec
        (simplejson_loads : string → result value)
        (T : column_types_t) (R : row_t) :
  NoDup T.*1 →
  ((∃ R', deserialize_columns simplejson_loads R T = Ok R') ↔
   (∀ column tag, (column, tag) ∈ T → tag ∈ JSON_SERIALIZABLE_COLUMN_TYPES →
      ∃ val, R !! column = Some val
             ∧ ∀ s, val = VStr s → ∃ decoded, simplejson_loads s = Ok decoded))
  ∧ (∀ R', deserialize_columns simplejson_loads R T = Ok R' → ∀ c,
       (∀ tag s, (c, tag) ∈ T → tag ∈ JSON_SERIALIZABLE_COLUMN_TYPES →
          R !! c = Some (VStr s) →
          ∃ decoded, simplejson_loads s = Ok decoded ∧ R' !! c = Some decoded)
       ∧ (∀ xs, (c, "list") ∈ T → R !! c = Some (VNdarray xs) →
            R' !! c = Some (VList xs))
       ∧ (∀ tag xs, (c, tag) ∈ T → tag ≠ "list" →
            R !! c = Some (VNdarray xs) → R' !! c = Some (VNdarray xs))
       ∧ (∀ tag val, (c, tag) ∈ T → R !! c = Some val →
            (∀ s, val ≠ VStr s) → (∀ xs, val ≠ VNdarray xs) →
            R' !! c = Some val)
       ∧ (∀ tag, (c, tag) ∈ T → tag ∉ JSON_SERIALIZABLE_COLUMN_TYPES →
            R' !! c = R !! c)
       ∧ ((c, "ObjectId") ∈ T → R' !! c = R !! c)
       ∧ (c ∉ T.*1 → R' !! c = R !! c)).
Proof.
  intros Hnd. split; [by apply deserialize_columns_returns_iff |].
  intros R' Hrun c.
  assert (Hother : ∀ tag, (c, tag) ∈ T → tag ∉ JSON_SERIALIZABLE_COLUMN_TYPES →
                          R' !! c = R !! c).
  { intros tag Hin Htag.
    by apply (deserialize_columns_other_tag simplejson_loads T R R' c tag). }
  repeat split.
  - intros tag s Hin Htag Hval.
    apply (deserialize_columns_json simplejson_loads T R R' c tag (VStr s));
      done.
  - intros xs Hin Hval.
    assert (Htag : "list" ∈ JSON_SERIALIZABLE_COLUMN_TYPES)
      by (apply JSON_tags; by right).
    apply (deserialize_columns_json simplejson_loads T R R' c "list"
             (VNdarray xs) Hnd Hin Htag Hval Hrun).
  - intros tag xs Hin Hne Hval.
    destruct (decide (tag ∈ JSON_SERIALIZABLE_COLUMN_TYPES)) as [Htag | Htag].
    + pose proof (deserialize_columns_json simplejson_loads T R R' c tag
                    (VNdarray xs) Hnd Hin Htag Hval Hrun) as Hout.
      simpl in Hout. apply String.eqb_neq in Hne. by rewrite Hne in Hout.
    + by rewrite (Hother tag Hin Htag).
  - intros tag val Hin Hval Hstr Harr.
    destruct (decide (tag ∈ JSON_SERIALIZABLE_COLUMN_TYPES)) as [Htag | Htag].
    + pose proof (deserialize_columns_json simplejson_loads T R R' c tag
                    val Hnd Hin Htag Hval Hrun) as Hout.
      destruct val; try exact Hout.
      * by destruct (Hstr s).
      * by destruct (Harr xs).
    + by rewrite (Hother tag Hin Htag).
  - exact Hother.
  - intros Hin. apply (Hother "ObjectId" Hin).
    rewrite JSON_tags. intros [? | ?]; discriminate.
  - intros Hout. by apply (deserialize_columns_frame simplejson_loads T).
Qed.

Lemma deserialize_columns_spec_witness :
  ∃ R', deserialize_columns ReferenceJson.loads Samples.stored_row
          Samples.column_types = Ok R'
        ∧ R' !! "payload" = Some (VList [VInt 1; VInt 2])
        ∧ R' !! "tags" = Some (VList [VInt 1; VInt 2])
        ∧ R' !! "_id" = Some (VStr "65f0c0ffee")
        ∧ R' !! "extra" = Some VNone.
Proof.
  assert (Hnd : NoDup Samples.column_types.*1) by compute_done.
  destruct (deserialize_columns ReferenceJson.loads Samples.stored_row
              Samples.column_types) as [R' | e] eqn:Hrun;
    [| vm_compute in Hrun; discriminate Hrun].
  exists R'. split; [reflexivity |].
  pose proof (proj2 (deserialize_columns_spec ReferenceJson.loads
                       Samples.column_types Samples.stored_row Hnd) R' Hrun)
    as Hcols.
  split; [| split; [| split]].
  - destruct (Hcols "payload") as (Hstr & _).
    destruct (Hstr "dict" "[1, 2]") as (decoded & Hdec & ->);
      [compute_done | compute_done | vm_compute; reflexivity |].
    vm_compute in Hdec. congruence.
  - destruct (Hcols "tags") as (_ & Harr & _).
    apply Harr; [compute_done | vm_compute; reflexivity].
  - destruct (Hcols "_id") as (_ & _ & _ & _ & _ & Hid & _).
    rewrite Hid; [vm_compute; reflexivity | compute_done].
  - destruct (Hcols "extra") as (_ & _ & _ & Hsame & _).
    apply (Hsame "dict"); [compute_done | vm_compute; reflexivity | |];
      discriminate.
Defined.

Example deserialize_columns_sample :
  deserialize_columns ReferenceJson.loads Samples.stored_row
    Samples.column_types
  = Ok {[ "payload" := VList [VInt 1; VInt 2];
          "tags" := VList [VInt 1; VInt 2];
          "_id" := VStr "65f0c0ffee";
          "count" := VInt 7;
          "extra" := VNone ]}.
Proof. vm_compute. reflexivity. Qed.

(** A string that is no JSON document: the decoder's exception is the
    outcome of the call. *)
Example deserialize_columns_malformed :
  deserialize_columns ReferenceJson.loads {[ "payload" := VStr "{oops" ]}
    [("payload", "dict")]
  = Raise (Exception "JSONDecodeError" "Expecting value").
Proof. vm_compute. reflexivity. Qed.

(** C1.  Let [T] be a table without repeated column, [c] a column of [T]
    with a JSON tag, and [val] the value of [c] in the row [R]: a dict or a
    list that the codec decodes back from its encoding.  Then whenever
    [serialize_columns] and then [deserialize_columns] return, the row
    returned holds [val] in [c]; the two calls return exactly when every
    column that [T] tags as serializable is in [R] with a value the codec
    accepts; and in that case they do return a row holding [val] in [c]. *)
Theorem serialize_deserialize_round_trip
        (simplejson_dumps : value → result string)
        (simplejson_loads : string → result value)
        (str : value → result string)
        (T : column_types_t) (R : row_t) (c tag : string) (val : value) :
  NoDup T.*1 →
  (c, tag) ∈ T → tag ∈ JSON_SERIALIZABLE_COLUMN_TYPES →
  R !! c = Some val → is_dict_or_list val = true →
  (encoded ← simplejson_dumps val; simplejson_loads encoded) = Ok val →
  (∀ R1 R2,
     serialize_columns simplejson_dumps str R T = Ok R1 →
     deserialize_columns simplejson_loads R1 T = Ok R2 →
     R2 !! c = Some val)
  ∧ ((∃ R1 R2, serialize_columns simplejson_dumps str R T = Ok R1
               ∧ deserialize_columns simplejson_loads R1 T = Ok R2) ↔
     row_transcodable simplejson_dumps simplejson_loads str R T = true)
  ∧ (row_transcodable simplejson_dumps simplejson_loads str R T = true →
     ∃ R1 R2, serialize_columns simplejson_dumps str R T = Ok R1
              ∧ deserialize_columns simplejson_loads R1 T = Ok R2
              ∧ R2 !! c = Some val).
Proof.
  intros Hnd Hin Htag Hval Hshape Hcodec.
  assert (Htrip : ∀ R1 R2,
     serialize_columns simplejson_dumps str R T = Ok R1 →
     deserialize_columns simplejson_loads R1 T = Ok R2 →
     R2 !! c = Some val).
  { intros R1 R2 Hser Hde.
    pose proof (serialize_columns_json simplejson_dumps str T R R1 c tag val
                  Hnd Hin Htag Hval Hser) as Hout.
    assert (Hnot : is_not_None val = true) by (by destruct val).
    rewrite Hnot in Hout. destruct Hout as (encoded & Hdumps & Hcol).
    rewrite Hdumps in Hcodec. simpl in Hcodec.
    destruct (deserialize_columns_json simplejson_loads T R1 R2 c tag
                (VStr encoded) Hnd Hin Htag Hcol Hde) as (decoded & Hl & ->).
    congruence. }
  split; [exact Htrip | split].
  - by apply transcode_returns_iff.
  - intros Hok.
    apply (transcode_returns_iff simplejson_dumps simplejson_loads str T R Hnd)
      in Hok as (R1 & R2 & Hser & Hde).
    exists R1, R2. split; [done | split; [done |]]. by apply (Htrip R1 R2).
Qed.

Lemma serialize_deserialize_round_trip_witness :
  ∃ R1 R2,
    serialize_columns ReferenceJson.dumps ReferenceJson.str
      Samples.row Samples.column_types = Ok R1
    ∧ deserialize_columns ReferenceJson.loads R1 Samples.column_types = Ok R2
    ∧ R2 !! "payload" = Some Samples.payload.
Proof.
  apply (serialize_deserialize_round_trip
           ReferenceJson.dumps ReferenceJson.loads ReferenceJson.str
           Samples.column_types Samples.row "payload" "dict" Samples.payload).
  - compute_done.
  - compute_done.
  - compute_done.
  - vm_compute; reflexivity.
  - reflexivity.
  - vm_compute; reflexivity.
  - vm_compute; reflexivity.
Defined.

(** The sample row, serialized and read back: the structured columns are
    restored, the [ObjectId] column stays a string. *)
Example serialize_columns_sample :
  serialize_columns ReferenceJson.dumps ReferenceJson.str
    Samples.row Samples.column_types
  = Ok {[ "payload" :=
            VStr ("{" +:+ ReferenceJson.quoted "x" +:+ ": 1, "
                  +:+ ReferenceJson.quoted "y" +:+ ": [true, null, "
                  +:+ ReferenceJson.quoted "z" +:+ "]}");
          "tags" := VStr ("[" +:+ ReferenceJson.quoted "a" +:+ ", "
                          +:+ ReferenceJson.quoted "b" +:+ "]");
          "_id" := VStr "65f0c0ffee";
          "count" := VInt 7;
          "extra" := VNone ]}.
Proof. vm_compute. reflexivity. Qed.

Example deserialize_serialize_sample :
  (R1 ← serialize_columns ReferenceJson.dumps ReferenceJson.str
          Samples.row Samples.column_types;
   deserialize_columns ReferenceJson.loads R1 Samples.column_types)
  = Ok (<[ "_id" := VStr "65f0c0ffee" ]> Samples.row).
Proof. vm_compute. reflexivity. Qed.

(** A column that the table names and the row lacks: [KeyError]. *)
Example serialize_columns_missing_column :
  serialize_columns ReferenceJson.dumps ReferenceJson.str
    {[ "payload" := Samples.payload ]} Samples.column_types
  = Raise (KeyError "tags").
Proof. vm_compute. reflexivity. Qed.

(** ** Column caster *)

(** A loop whose body, for an item [(column, tag)], either skips the item,
    or replaces the column, or prints an exception and leaves the table as
    it is; [attempt column tag (df !! column)] says which. *)
Section TolerantLoop.
Variable body :
  frame_t * printed_t → string * string → result (frame_t * printed_t).
Variable attempt : string → string → option series → option (result series).

Hypothesis body_eq : ∀ st column tag,
  body st (column, tag) =
  Ok (match attempt column tag (st.1 !! column) with
      | None => st
      | Some (Ok casted) => (<[column := casted]> st.1, st.2)
      | Some (Raise e) => (st.1, (st.2 ++ [e])%list)
      end).

Lemma tolerant_body_frame (st st' : frame_t * printed_t)
      (column tag c : string) :
  body st (column, tag) = Ok st' → c ≠ column → st'.1 !! c = st.1 !! c.
Proof.
  rewrite body_eq. intros [= <-] Hne.
  destruct (attempt column tag (st.1 !! column)) as [[casted | e] |]; simpl;
    [by rewrite lookup_insert_ne | done | done].
Qed.

Lemma tolerant_body_grows (st st' : frame_t * printed_t)
      (column tag : string) (e : exn) :
  body st (column, tag) = Ok st' → e ∈ st.2 → e ∈ st'.2.
Proof.
  rewrite body_eq. intros [= <-] Hin.
  destruct (attempt column tag (st.1 !! column)) as [[casted | e'] |]; simpl;
    [done | | done].
  apply elem_of_app. by left.
Qed.

Lemma tolerant_loop (T : column_types_t) (st : frame_t * printed_t) :
  NoDup T.*1 →
  ∃ st', for_items body T st = Ok st'
    ∧ (∀ e, e ∈ st.2 → e ∈ st'.2)
    ∧ (∀ c tag, (c, tag) ∈ T →
         match attempt c tag (st.1 !! c) with
         | None => st'.1 !! c = st.1 !! c
         | Some (Ok casted) => st'.1 !! c = Some casted
         | Some (Raise e) => st'.1 !! c = st.1 !! c ∧ e ∈ st'.2
         end)
    ∧ (∀ c, c ∉ T.*1 → st'.1 !! c = st.1 !! c)
    ∧ (∀ e, e ∈ st'.2 → e ∈ st.2
         ∨ ∃ c tag, (c, tag) ∈ T ∧ attempt c tag (st.1 !! c) = Some (Raise e)).
Proof.
  revert st. induction T as [| [c0 t0] rest IH]; intros st Hnd.
  - exists st. simpl. repeat split; try done.
    + intros c tag Hin. inversion Hin.
    + intros e He. by left.
  - rewrite fmap_cons in Hnd. apply NoDup_cons in Hnd as [Hfresh Hnd].
    destruct (body st (c0, t0)) as [st1 |] eqn:Hstep;
      [| by rewrite body_eq in Hstep].
    destruct (IH st1 Hnd) as (st' & Hrun & Hgrow & Hcols & Hframe & Honly).
    exists st'. simpl. rewrite Hstep. simpl.
    split; [exact Hrun |].
    assert (Hrest : ∀ c tag, (c, tag) ∈ rest → st1.1 !! c = st.1 !! c).
    { intros c tag Hin. apply (tolerant_body_frame st st1 c0 t0 c Hstep).
      intros ->. apply Hfresh. apply list_elem_of_fmap. by exists (c0, tag). }
    repeat split.
    + intros e He. apply Hgrow. by apply (tolerant_body_grows st st1 c0 t0).
    + intros c tag Hin. apply elem_of_cons in Hin as [[= -> ->] | Hin].
      * rewrite (Hframe c0 Hfresh). rewrite body_eq in Hstep.
        injection Hstep as <-.
        destruct (attempt c0 t0 (st.1 !! c0)) as [[casted | e] |]; simpl;
          [by rewrite lookup_insert_eq | | done].
        split; [done |]. apply Hgrow. simpl. apply elem_of_app. right.
        by apply list_elem_of_singleton.
      * specialize (Hcols c tag Hin). rewrite (Hrest c tag Hin) in Hcols.
        exact Hcols.
    + intros c Hc.
      apply not_elem_of_cons in Hc as [Hne Hc]. rewrite (Hframe c Hc).
      by apply (tolerant_body_frame st st1 c0 t0 c Hstep).
    + intros e He. destruct (Honly e He) as [Hold | (c & tag & Hin & Hfail)].
      * rewrite body_eq in Hstep. injection Hstep as <-.
        destruct (attempt c0 t0 (st.1 !! c0)) as [[casted | e'] |] eqn:Hatt;
          simpl in Hold; [by left | | by left].
        apply elem_of_app in Hold as [Hold | Hnew]; [by left |].
        apply list_elem_of_singleton in Hnew as ->. right.
        exists c0, t0. split; [left | done].
      * right. exists c, tag. split; [by right |].
        by rewrite <- (Hrest c tag Hin).
Qed.
End TolerantLoop.

Lemma cast_column_eq (astype : series → string → result series)
      (st : frame_t * printed_t) (column tag : string) :
  cast_column astype st (column, tag) =
  Ok (match (if tag_in tag CAST_TYPE_COLUMN_TYPES
             then Some (match st.1 !! column with
                        | None => Raise (KeyError column)
                        | Some col => astype col tag
                        end)
             else None) with
      | None => st
      | Some (Ok casted) => (<[column := casted]> st.1, st.2)
      | Some (Raise e) => (st.1, (st.2 ++ [e])%list)
      end).
Proof.
  unfold cast_column, assign_astype, getitem.
  destruct (tag_in tag CAST_TYPE_COLUMN_TYPES); [| reflexivity].
  destruct (st.1 !! column) as [col |]; simpl; [| reflexivity].
  destruct (astype col tag); reflexivity.
Qed.

Lemma cast_column_polars_eq
      (polars_cast : series → polars_dtype → result series)
      (st : frame_t * printed_t) (column tag : string) :
  cast_column_polars polars_cast st (column, tag) =
  Ok (match (match POLARS_CAST_TYPE_COLUMN_TYPES !! tag with
             | Some target =>
                 Some (match st.1 !! column with
                       | None => Raise (Exception "ColumnNotFoundError" column)
                       | Some col => polars_cast col target
                       end)
             | None => None
             end) with
      | None => st
      | Some (Ok casted) => (<[column := casted]> st.1, st.2)
      | Some (Raise e) => (st.1, (st.2 ++ [e])%list)
      end).
Proof.
  unfold cast_column_polars, DataFrame_cast.
  destruct (POLARS_CAST_TYPE_COLUMN_TYPES !! tag) as [target |];
    [| reflexivity].
  destruct (st.1 !! column) as [col |]; simpl; [| reflexivity].
  destruct (polars_cast col target); reflexivity.
Qed.

(** C6.  On a table [T] without repeated column, [cast_column_types] and
    [cast_column_types_polars] return a table and never raise.  For a
    column whose tag is castable: when its cast succeeds the returned
    table holds the cast column; when its cast raises (or the column is
    absent) the exception is printed and the column is as it was.  Columns
    with another tag, and columns [T] does not name, are as they were, and
    nothing is printed but such failures. *)
Theorem cast_column_types_tolerate_failures
        (astype : series → string → result series)
        (polars_cast : series → polars_dtype → result series)
        (T : column_types_t) (df : frame_t) :
  NoDup T.*1 →
  (∃ df' printed,
     cast_column_types astype df T = Ok (df', printed)
     ∧ (∀ c tag, (c, tag) ∈ T → tag ∈ CAST_TYPE_COLUMN_TYPES →
          match df !! c with
          | Some col =>
              match astype col tag with
              | Ok casted => df' !! c = Some casted
              | Raise e => df' !! c = Some col ∧ e ∈ printed
              end
          | None => df' !! c = None ∧ KeyError c ∈ printed
          end)
     ∧ (∀ c tag, (c, tag) ∈ T → tag ∉ CAST_TYPE_COLUMN_TYPES →
          df' !! c = df !! c)
     ∧ (∀ c, c ∉ T.*1 → df' !! c = df !! c)
     ∧ (∀ e, e ∈ printed →
          ∃ c tag, (c, tag) ∈ T ∧ tag ∈ CAST_TYPE_COLUMN_TYPES
            ∧ match df !! c with
              | Some col => astype col tag = Raise e
              | None => e = KeyError c
              end))
  ∧ (∃ df' printed,
       cast_column_types_polars polars_cast df T = Ok (df', printed)
       ∧ (∀ c tag target, (c, tag) ∈ T →
            POLARS_CAST_TYPE_COLUMN_TYPES !! tag = Some target →
            match df !! c with
            | Some col =>
                match polars_cast col target with
                | Ok casted => df' !! c = Some casted
                | Raise e => df' !! c = Some col ∧ e ∈ printed
                end
            | None =>
                df' !! c = None ∧ Exception "ColumnNotFoundError" c ∈ printed
            end)
       ∧ (∀ c tag, (c, tag) ∈ T →
            POLARS_CAST_TYPE_COLUMN_TYPES !! tag = None → df' !! c = df !! c)
       ∧ (∀ c, c ∉ T.*1 → df' !! c = df !! c)
       ∧ (∀ e, e ∈ printed →
            ∃ c tag target, (c, tag) ∈ T
              ∧ POLARS_CAST_TYPE_COLUMN_TYPES !! tag = Some target
              ∧ match df !! c with
                | Some col => polars_cast col target = Raise e
                | None => e = Exception "ColumnNotFoundError" c
                end)).
Proof.
  intros Hnd. split.
  - destruct (tolerant_loop (cast_column astype)
                (λ column tag cell,
                   if tag_in tag CAST_TYPE_COLUMN_TYPES
                   then Some (match cell with
                              | None => Raise (KeyError column)
                              | Some col => astype col tag
                              end)
                   else None)
                (cast_column_eq astype) T (df, []) Hnd)
      as ([df' printed] & Hrun & _ & Hcols & Hframe & Honly).
    simpl in *. exists df', printed. split; [exact Hrun |]. repeat split.
    + intros c tag Hin Htag. specialize (Hcols c tag Hin).
      apply tag_in_spec in Htag. rewrite Htag in Hcols.
      destruct (df !! c) as [col |]; [| exact Hcols].
      destruct (astype col tag); exact Hcols.
    + intros c tag Hin Htag. specialize (Hcols c tag Hin).
      apply tag_in_false in Htag. by rewrite Htag in Hcols.
    + exact Hframe.
    + intros e He. destruct (Honly e He) as [Hnil | (c & tag & Hin & Hfail)];
        [inversion Hnil |].
      exists c, tag. split; [done |].
      destruct (tag_in tag CAST_TYPE_COLUMN_TYPES) eqn:Htag; [| done].
      split; [by apply tag_in_spec |].
      destruct (df !! c) as [col |]; congruence.
  - destruct (tolerant_loop (cast_column_polars polars_cast)
                (λ column tag cell,
                   match POLARS_CAST_TYPE_COLUMN_TYPES !! tag with
                   | Some target =>
                       Some (match cell with
                             | None =>
                                 Raise (Exception "ColumnNotFoundError" column)
                             | Some col => polars_cast col target
                             end)
                   | None => None
                   end)
                (cast_column_polars_eq polars_cast) T (df, []) Hnd)
      as ([df' printed] & Hrun & _ & Hcols & Hframe & Honly).
    simpl in *. exists df', printed. split; [exact Hrun |]. repeat split.
    + intros c tag target Hin Htag. specialize (Hcols c tag Hin).
      rewrite Htag in Hcols.
      destruct (df !! c) as [col |]; [| exact Hcols].
      destruct (polars_cast col target); exact Hcols.
    + intros c tag Hin Htag. specialize (Hcols c tag Hin).
      by rewrite Htag in Hcols.
    + exact Hframe.
    + intros e He. destruct (Honly e He) as [Hnil | (c & tag & Hin & Hfail)];
        [inversion Hnil |].
      destruct (POLARS_CAST_TYPE_COLUMN_TYPES !! tag) as [target |] eqn:Htag;
        [| done].
      exists c, tag, target. split; [done | split; [done |]].
      destruct (df !! c) as [col |]; congruence.
Qed.

Lemma cast_column_types_tolerate_failures_witness :
  NoDup ReferenceCast.column_types.*1
  ∧ cast_column_types ReferenceCast.astype ReferenceCast.table
      ReferenceCast.column_types
    = Ok (<[ "qty" := Series "int64" [VInt 1; VInt 2] ]> ReferenceCast.table,
          [Exception "ValueError" "invalid literal"; KeyError "gone"])
  ∧ cast_column_types_polars ReferenceCast.polars_cast ReferenceCast.table
      ReferenceCast.column_types_polars
    = Ok (<[ "qty" := Series "Int64" [VInt 1; VInt 2] ]> ReferenceCast.table,
          [Exception "ValueError" "invalid literal";
           Exception "ColumnNotFoundError" "gone"])
  ∧ ∃ df' printed,
      cast_column_types ReferenceCast.astype ReferenceCast.table
        ReferenceCast.column_types = Ok (df', printed).
Proof.
  assert (Hnd : NoDup ReferenceCast.column_types.*1) by compute_done.
  split; [exact Hnd |].
  split; [vm_compute; reflexivity |].
  split; [vm_compute; reflexivity |].
  destruct (cast_column_types_tolerate_failures
              ReferenceCast.astype ReferenceCast.polars_cast
              ReferenceCast.column_types ReferenceCast.table Hnd)
    as [(df' & printed & Hrun & _) _].
  by exists df', printed.
Defined.

(** ** Table partitioner *)

Lemma MAX_PARTITION_BYTE_SIZE_value : MAX_PARTITION_BYTE_SIZE = 104857600.
Proof. reflexivity. Qed.

Lemma dask_from_pandas_npartitions (memory_usage_deep : frame_t → list Z)
      (df : frame_t) :
  npartitions (dask_from_pandas memory_usage_deep df)
  = 1 + total_bytes memory_usage_deep df `div` MAX_PARTITION_BYTE_SIZE.
Proof. reflexivity. Qed.

(** The table is the one given; only the partition count is computed. *)
Lemma dask_from_pandas_table (memory_usage_deep : frame_t → list Z)
      (df : frame_t) :
  ddf_table (dask_from_pandas memory_usage_deep df) = df.
Proof. reflexivity. Qed.

(** C5, as stated, fails: a table of one byte is within the budget and has
    [total_bytes > 0], and it gets one partition, so not every such table
    gets two partitions or more. *)
Lemma one_byte_table_gets_one_partition :
  0 < total_bytes (λ _, [1]) ∅
  ∧ total_bytes (λ _, [1]) ∅ ≤ MAX_PARTITION_BYTE_SIZE
  ∧ npartitions (dask_from_pandas (λ _, [1]) ∅) = 1
  ∧ ¬ (∀ (memory_usage_deep : frame_t → list Z) (df : frame_t),
         0 < total_bytes memory_usage_deep df →
         total_bytes memory_usage_deep df ≤ MAX_PARTITION_BYTE_SIZE →
         2 ≤ npartitions (dask_from_pandas memory_usage_deep df)).
Proof.
  split; [reflexivity | split; [discriminate | split; [reflexivity |]]].
  intros Hall. specialize (Hall (λ _, [1]) ∅ eq_refl).
  assert (Hle : total_bytes (λ _, [1]) ∅ ≤ MAX_PARTITION_BYTE_SIZE)
    by discriminate.
  specialize (Hall Hle). by apply Hall.
Qed.

(** C5, amended.  [dask_from_pandas] repartitions to
    [1 + total_bytes // MAX_PARTITION_BYTE_SIZE] partitions, the budget
    being [100 * 1024 * 1024] bytes: 1 for a table of 0 bytes, 2 for
    [MAX_PARTITION_BYTE_SIZE + 1] bytes, 3 for [2 * MAX_PARTITION_BYTE_SIZE]
    bytes.  A table below the budget gets exactly 1 partition, a table of
    exactly the budget gets 2, and a table gets 2 or more exactly when it
    has reached the budget. *)
Theorem dask_from_pandas_partition_count
        (memory_usage_deep : frame_t → list Z) (df : frame_t) :
  npartitions (dask_from_pandas memory_usage_deep df)
  = 1 + total_bytes memory_usage_deep df `div` (100 * 1024 * 1024)
  ∧ (total_bytes memory_usage_deep df = 0 →
     npartitions (dask_from_pandas memory_usage_deep df) = 1)
  ∧ (total_bytes memory_usage_deep df = MAX_PARTITION_BYTE_SIZE + 1 →
     npartitions (dask_from_pandas memory_usage_deep df) = 2)
  ∧ (total_bytes memory_usage_deep df = 2 * MAX_PARTITION_BYTE_SIZE →
     npartitions (dask_from_pandas memory_usage_deep df) = 3)
  ∧ (0 ≤ total_bytes memory_usage_deep df < MAX_PARTITION_BYTE_SIZE →
     npartitions (dask_from_pandas memory_usage_deep df) = 1)
  ∧ (total_bytes memory_usage_deep df = MAX_PARTITION_BYTE_SIZE →
     npartitions (dask_from_pandas memory_usage_deep df) = 2)
  ∧ (0 ≤ total_bytes memory_usage_deep df →
     (2 ≤ npartitions (dask_from_pandas memory_usage_deep df)
      ↔ MAX_PARTITION_BYTE_SIZE ≤ total_bytes memory_usage_deep df)).
Proof.
  rewrite dask_from_pandas_npartitions.
  generalize (total_bytes memory_usage_deep df). intros total.
  rewrite MAX_PARTITION_BYTE_SIZE_value.
  change (100 * 1024 * 1024) with 104857600.
  split; [reflexivity |].
  split; [by intros -> |].
  split; [by intros -> |].
  split; [by intros -> |].
  split; [intros Hlt; by rewrite Z.div_small |].
  split; [by intros -> |].
  intros Hnn. split.
  - intros Hnp. destruct (Z_lt_le_dec total 104857600) as [Hlt | Hge];
      [| exact Hge].
    rewrite Z.div_small in Hnp by lia. lia.
  - intros Hge.
    assert (1 ≤ total `div` 104857600) by (apply Z.div_le_lower_bound; lia).
    lia.
Qed.

Example dask_from_pandas_sample :
  npartitions (dask_from_pandas (λ _, [128; 104857600; 104857600])
                 ReferenceCast.table) = 3.
Proof. reflexivity. Qed.

(** ** Serializability probe *)

Lemma is_yaml_serializable_eq
      (yaml_dump : value → result string)
      (yaml_safe_load : string → result value) (key : string) (val : value) :
  is_yaml_serializable yaml_dump yaml_safe_load key val
  = Ok (yaml_round_trips yaml_dump yaml_safe_load (VDict [("key", val)])).
Proof.
  unfold is_yaml_serializable, yaml_round_trips, dict_key, try_except.
  destruct (yaml_dump (VDict [("key", val)])) as [s |]; simpl;
    [| reflexivity].
  destruct (yaml_safe_load s); reflexivity.
Qed.

(** C7, as stated, fails: the mapping encoded is [{"key": value}] and not
    [{key: value}].  Called with the key ["k"], the probe hands the codec a
    mapping whose key is ["key"]; with a decoder that rejects the document
    of [{"k": 42}] alone it answers true, where encoding and decoding
    [{"k": 42}] fails. *)
Lemma is_yaml_serializable_encodes_literal_key :
  dict_key (VInt 42) = VDict [("key", VInt 42)]
  ∧ dict_key (VInt 42) ≠ VDict [("k", VInt 42)]
  ∧ ¬ (∀ (yaml_dump : value → result string)
         (yaml_safe_load : string → result value)
         (key : string) (val : value),
         is_yaml_serializable yaml_dump yaml_safe_load key val
         = Ok (yaml_round_trips yaml_dump yaml_safe_load
                 (VDict [(key, val)]))).
Proof.
  split; [reflexivity | split; [discriminate |]].
  intros Hall.
  specialize (Hall ReferenceJson.dumps
                (λ s, if String.eqb s ("{" +:+ ReferenceJson.quoted "k"
                                       +:+ ": 42}")
                      then Raise (Exception "ConstructorError" s)
                      else ReferenceJson.loads s)
                "k" (VInt 42)).
  vm_compute in Hall. discriminate Hall.
Qed.

(** C7, amended.  [is_yaml_serializable(key, value)] never raises: it
    returns a boolean, which is true exactly when [yaml.dump] of the
    mapping [{"key": value}] returns and [yaml.safe_load] of the text it
    gave returns; an exception of either step gives false. *)
Theorem is_yaml_serializable_spec
        (yaml_dump : value → result string)
        (yaml_safe_load : string → result value) (key : string) (val : value) :
  (∃ b, is_yaml_serializable yaml_dump yaml_safe_load key val = Ok b)
  ∧ (is_yaml_serializable yaml_dump yaml_safe_load key val = Ok true ↔
     ∃ s decoded, yaml_dump (VDict [("key", val)]) = Ok s
                  ∧ yaml_safe_load s = Ok decoded)
  ∧ (∀ e, yaml_dump (VDict [("key", val)]) = Raise e →
       is_yaml_serializable yaml_dump yaml_safe_load key val = Ok false)
  ∧ (∀ s e, yaml_dump (VDict [("key", val)]) = Ok s →
       yaml_safe_load s = Raise e →
       is_yaml_serializable yaml_dump yaml_safe_load key val = Ok false)
  ∧ (∀ e, is_yaml_serializable yaml_dump yaml_safe_load key val ≠ Raise e).
Proof.
  rewrite is_yaml_serializable_eq. unfold yaml_round_trips.
  destruct (yaml_dump (VDict [("key", val)])) as [s | e0] eqn:Hdump.
  - destruct (yaml_safe_load s) as [decoded | e1] eqn:Hload.
    + repeat split; try done.
      * by exists true.
      * intros _. by exists s, decoded.
      * intros s' e [= <-]. congruence.
    + repeat split; try done.
      * by exists false.
      * intros (s' & decoded & [= <-] & Hl). congruence.
  - repeat split; try done.
    + by exists false.
    + by intros (s' & decoded & [=] & _).
Qed.

(** C10.  The answer of [is_yaml_serializable] does not depend on its key
    argument. *)
Theorem is_yaml_serializable_ignores_key
        (yaml_dump : value → result string)
        (yaml_safe_load : string → result value)
        (k1 k2 : string) (val : value) :
  is_yaml_serializable yaml_dump yaml_safe_load k1 val
  = is_yaml_serializable yaml_dump yaml_safe_load k2 val.
Proof. by rewrite !is_yaml_serializable_eq. Qed.

(** The probe on the values of the specification, with the reference codec
    standing for yaml's flow style. *)
Example is_yaml_serializable_samples :
  is_yaml_serializable ReferenceJson.dumps ReferenceJson.loads "k" (VInt 42)
  = Ok true
  ∧ is_yaml_serializable ReferenceJson.dumps ReferenceJson.loads "k"
      (VStr "hello") = Ok true
  ∧ is_yaml_serializable ReferenceJson.dumps ReferenceJson.loads "k"
      (VList [VInt 1; VInt 2; VInt 3]) = Ok true
  ∧ is_yaml_serializable ReferenceJson.dumps ReferenceJson.loads "k"
      (VObject "Custom" "<Custom object>") = Ok false.
Proof. vm_compute. repeat split. Qed.

(** * Further properties *)

(** ** Loops: what a loop keeps, and the order of the items *)

(** A quantity that every iteration keeps is kept by the loop. *)
Lemma for_items_keeps {I S X} (body : S → I → result S) (f : S → X)
      (items : list I) (s s' : S) :
  (∀ s0 item s1, body s0 item = Ok s1 → f s1 = f s0) →
  for_items body items s = Ok s' → f s' = f s.
Proof.
  intros Hkeep. revert s. induction items as [| item rest IH]; intros s; simpl.
  - by intros [= ->].
  - rewrite bind_Ok. intros (s1 & Hstep & Hrest).
    rewrite (IH s1 Hrest). by apply (Hkeep s item).
Qed.

(** A loop whose iterations all leave the object as it is returns it. *)
Lemma for_items_skips {I S} (body : S → I → result S)
      (items : list I) (s : S) :
  (∀ item, item ∈ items → body s item = Ok s) →
  for_items body items s = Ok s.
Proof.
  induction items as [| item rest IH]; intros Hskip; simpl; [done |].
  rewrite (Hskip item) by left. simpl. apply IH.
  intros item' Hin. apply Hskip. by right.
Qed.

Section ForItemsOrder.
Context {S V : Type}.
Variable view : S → gmap string V.
Variable body : S → string * string → result S.

Hypothesis body_frame : ∀ s column tag s' c,
  body s (column, tag) = Ok s' → c ≠ column → view s' !! c = view s !! c.
Hypothesis body_local : ∀ s1 s2 column tag s1',
  view s1 !! column = view s2 !! column →
  body s1 (column, tag) = Ok s1' →
  ∃ s2', body s2 (column, tag) = Ok s2'
         ∧ view s2' !! column = view s1' !! column.

(** The items of a dict taken in another order: the loop returns again. *)
Lemma for_items_reordered_returns (items items' : column_types_t) (s s1 : S) :
  NoDup items.*1 → items ≡ₚ items' → for_items body items s = Ok s1 →
  ∃ s1', for_items body items' s = Ok s1'.
Proof.
  intros Hnd Hperm Hrun.
  apply (for_items_returns view body body_frame body_local).
  - by rewrite <- Hperm.
  - intros item Hin. rewrite <- Hperm in Hin.
    by apply (for_items_returned view body body_frame body_local items s s1).
Qed.

(** ... and every column ends the same. *)
Lemma for_items_reordered (items items' : column_types_t) (s s1 s1' : S)
      (c : string) :
  NoDup items.*1 → items ≡ₚ items' →
  for_items body items s = Ok s1 → for_items body items' s = Ok s1' →
  view s1 !! c = view s1' !! c.
Proof.
  intros Hnd Hperm Hrun Hrun'.
  assert (Hnd' : NoDup items'.*1) by (by rewrite <- Hperm).
  destruct (decide (c ∈ items.*1)) as [Hc | Hc].
  - apply list_elem_of_fmap in Hc as ([c' tag] & -> & Hin). simpl.
    destruct (for_items_hit view body body_frame body_local
                items s s1 c' tag Hnd Hin Hrun) as (r & Hr & ->).
    assert (Hin' : (c', tag) ∈ items') by (by rewrite <- Hperm).
    destruct (for_items_hit view body body_frame body_local
                items' s s1' c' tag Hnd' Hin' Hrun') as (r' & Hr' & ->).
    congruence.
  - rewrite (for_items_frame view body body_frame items s s1 c Hc Hrun).
    assert (Hc' : c ∉ items'.*1) by (by rewrite <- Hperm).
    by rewrite (for_items_frame view body body_frame items' s s1' c Hc' Hrun').
Qed.
End ForItemsOrder.

(** ** Row transcoder: more on [serialize_columns] *)

Section SerializeFacts.
Variable simplejson_dumps : value → result string.
Variable str : value → result string.

(** A column with a string-serializable tag, after [serialize_columns]. *)
Lemma serialize_columns_string (T : column_types_t) (R R' : row_t)
      (column tag : string) (val : value) :
  NoDup T.*1 → (column, tag) ∈ T → tag ∈ STRING_SERIALIZABLE_COLUMN_TYPES →
  R !! column = Some val → serialize_columns simplejson_dumps str R T = Ok R' →
  if is_not_None val
  then ∃ text, str val = Ok text ∧ R' !! column = Some (VStr text)
  else R' !! column = Some VNone.
Proof.
  intros Hnd Hin Htag Hval Hrun.
  destruct (serialize_columns_hit simplejson_dumps str T R R' column tag
              Hnd Hin Hrun) as (r & Hstep & ->).
  assert (Hjson : tag_in tag JSON_SERIALIZABLE_COLUMN_TYPES = false).
  { apply tag_in_false. intros Hj. by apply (JSON_STRING_disjoint tag). }
  apply tag_in_spec in Htag.
  rewrite serialize_column_unfold, Hjson, Htag, Hval in Hstep.
  destruct val; simpl;
    try (destruct (str _) as [text |] eqn:Hd; [| done];
         injection Hstep as <-; exists text;
         by rewrite lookup_insert_eq).
  injection Hstep as <-. exact Hval.
Qed.

(** A column whose tag is in neither set is not serialized. *)
Lemma serialize_columns_other_tag (T : column_types_t) (R R' : row_t)
      (column tag : string) :
  NoDup T.*1 → (column, tag) ∈ T →
  tag ∉ JSON_SERIALIZABLE_COLUMN_TYPES →
  tag ∉ STRING_SERIALIZABLE_COLUMN_TYPES →
  serialize_columns simplejson_dumps str R T = Ok R' →
  R' !! column = R !! column.
Proof.
  intros Hnd Hin Hj Hs Hrun.
  destruct (serialize_columns_hit simplejson_dumps str T R R' column tag
              Hnd Hin Hrun) as (r & Hstep & ->).
  apply tag_in_false in Hj, Hs.
  rewrite serialize_column_unfold, Hj, Hs in Hstep. by injection Hstep as <-.
Qed.

(** When [serialize_columns] returns. *)
Lemma serialize_columns_returns_iff (T : column_types_t) (R : row_t) :
  NoDup T.*1 →
  ((∃ R', serialize_columns simplejson_dumps str R T = Ok R') ↔
   ∀ column tag, (column, tag) ∈ T →
     (tag ∈ JSON_SERIALIZABLE_COLUMN_TYPES →
        ∃ val, R !! column = Some val
               ∧ (is_not_None val = true →
                  ∃ encoded, simplejson_dumps val = Ok encoded))
     ∧ (tag ∈ STRING_SERIALIZABLE_COLUMN_TYPES →
          ∃ val, R !! column = Some val
                 ∧ (is_not_None val = true → ∃ text, str val = Ok text))).
Proof.
  intros Hnd. split.
  - intros (R' & Hrun) column tag Hin. split; intros Htag.
    + destruct (serialize_columns_hit simplejson_dumps str T R R' column tag
                  Hnd Hin Hrun) as (r & Hstep & _).
      apply tag_in_spec in Htag.
      rewrite serialize_column_unfold, Htag in Hstep.
      destruct (R !! column) as [val |]; [| done].
      exists val. split; [done |]. intros Hnn.
      destruct val; try done;
        (destruct (simplejson_dumps _) as [encoded |]; [by exists encoded | done]).
    + destruct (serialize_columns_hit simplejson_dumps str T R R' column tag
                  Hnd Hin Hrun) as (r & Hstep & _).
      assert (Hjson : tag_in tag JSON_SERIALIZABLE_COLUMN_TYPES = false).
      { apply tag_in_false. intros Hj. by apply (JSON_STRING_disjoint tag). }
      apply tag_in_spec in Htag.
      rewrite serialize_column_unfold, Hjson, Htag in Hstep.
      destruct (R !! column) as [val |]; [| done].
      exists val. split; [done |]. intros Hnn.
      destruct val; try done;
        (destruct (str _) as [text |]; [by exists text | done]).
  - intros Hall. apply serialize_columns_returns; [done |].
    intros [column tag] Hin. destruct (Hall column tag Hin) as [Hj Hs].
    rewrite serialize_column_unfold.
    destruct (tag_in tag JSON_SERIALIZABLE_COLUMN_TYPES) eqn:Htj.
    { apply tag_in_spec in Htj. destruct (Hj Htj) as (val & -> & Hd).
      destruct val; try (destruct (Hd eq_refl) as (encoded & ->)); by eexists. }
    destruct (tag_in tag STRING_SERIALIZABLE_COLUMN_TYPES) eqn:Hts;
      [| by eexists].
    apply tag_in_spec in Hts. destruct (Hs Hts) as (val & -> & Hd).
    destruct val; try (destruct (Hd eq_refl) as (text & ->)); by eexists.
Qed.
End SerializeFacts.

(** X1.  [serialize_columns] on a table [T] without repeated column: it
    returns exactly when every column with a serializable tag is in the row
    and the encoder ([simplejson.dumps] for a JSON tag, [str] for
    ["ObjectId"]) accepts its value unless that is [None]; and in the row
    returned, such a column holds the text the encoder gave, as a [str],
    a [None] is still [None], and a column with any other tag, or that [T]
    does not name, is unchanged. *)
Theorem serialize_columns_spec
        (simplejson_dumps : value → result string)
        (str : value → result string)
        (T : column_types_t) (R : row_t) :
  NoDup T.*1 →
  ((∃ R', serialize_columns simplejson_dumps str R T = Ok R') ↔
   (∀ column tag, (column, tag) ∈ T →
      (tag ∈ JSON_SERIALIZABLE_COLUMN_TYPES →
         ∃ val, R !! column = Some val
                ∧ (is_not_None val = true →
                   ∃ encoded, simplejson_dumps val = Ok encoded))
      ∧ (tag ∈ STRING_SERIALIZABLE_COLUMN_TYPES →
           ∃ val, R !! column = Some val
                  ∧ (is_not_None val = true → ∃ text, str val = Ok text))))
  ∧ (∀ R', serialize_columns simplejson_dumps str R T = Ok R' → ∀ c,
       (∀ tag val, (c, tag) ∈ T → tag ∈ JSON_SERIALIZABLE_COLUMN_TYPES →
          R !! c = Some val → is_not_None val = true →
          ∃ encoded, simplejson_dumps val = Ok encoded
                     ∧ R' !! c = Some (VStr encoded))
       ∧ (∀ tag val, (c, tag) ∈ T → tag ∈ STRING_SERIALIZABLE_COLUMN_TYPES →
            R !! c = Some val → is_not_None val = true →
            ∃ text, str val = Ok text ∧ R' !! c = Some (VStr text))
       ∧ (R !! c = Some VNone → R' !! c = Some VNone)
       ∧ (∀ tag, (c, tag) ∈ T → tag ∉ JSON_SERIALIZABLE_COLUMN_TYPES →
            tag ∉ STRING_SERIALIZABLE_COLUMN_TYPES → R' !! c = R !! c)
       ∧ (c ∉ T.*1 → R' !! c = R !! c)).
Proof.
  intros Hnd. split; [by apply serialize_columns_returns_iff |].
  intros R' Hrun c. repeat split.
  - intros tag val Hin Htag Hval Hnn.
    pose proof (serialize_columns_json simplejson_dumps str T R R' c tag val
                  Hnd Hin Htag Hval Hrun) as Hout.
    by rewrite Hnn in Hout.
  - intros tag val Hin Htag Hval Hnn.
    pose proof (serialize_columns_string simplejson_dumps str T R R' c tag val
                  Hnd Hin Htag Hval Hrun) as Hout.
    by rewrite Hnn in Hout.
  - intros Hnone.
    by apply (serialize_columns_keep_None simplejson_dumps str T R R' c).
  - intros tag Hin Hj Hs.
    by apply (serialize_columns_other_tag simplejson_dumps str T R R' c tag).
  - intros Hc. by apply (serialize_columns_frame simplejson_dumps str T).
Qed.

Lemma serialize_columns_spec_witness :
  ∃ R', serialize_columns ReferenceJson.dumps ReferenceJson.str
          Samples.row Samples.column_types = Ok R'
        ∧ R' !! "_id" = Some (VStr "65f0c0ffee")
        ∧ R' !! "tags"
          = Some (VStr ("[" +:+ ReferenceJson.quoted "a" +:+ ", "
                        +:+ ReferenceJson.quoted "b" +:+ "]"))
        ∧ R' !! "count" = Some (VInt 7)
        ∧ R' !! "extra" = Some VNone.
Proof.
  assert (Hnd : NoDup Samples.column_types.*1) by compute_done.
  destruct (serialize_columns ReferenceJson.dumps ReferenceJson.str
              Samples.row Samples.column_types) as [R' | e] eqn:Hrun;
    [| vm_compute in Hrun; discriminate Hrun].
  exists R'. split; [reflexivity |].
  pose proof (proj2 (serialize_columns_spec ReferenceJson.dumps
                       ReferenceJson.str Samples.column_types Samples.row Hnd)
                R' Hrun) as Hcols.
  split; [| split; [| split]].
  - destruct (Hcols "_id") as (_ & Hstr & _).
    destruct (Hstr "ObjectId" (VObject "ObjectId" "65f0c0ffee"))
      as (text & Htext & ->);
      [compute_done | compute_done | vm_compute; reflexivity | reflexivity |].
    vm_compute in Htext. congruence.
  - destruct (Hcols "tags") as (Hjson & _).
    destruct (Hjson "list" (VList [VStr "a"; VStr "b"]))
      as (encoded & Henc & ->);
      [compute_done | compute_done | vm_compute; reflexivity | reflexivity |].
    vm_compute in Henc. injection Henc as <-. vm_compute. reflexivity.
  - destruct (Hcols "count") as (_ & _ & _ & Hother & _).
    rewrite (Hother "int64"); [vm_compute; reflexivity | compute_done | |];
      rewrite ?JSON_tags, ?STRING_tags; intuition discriminate.
  - destruct (Hcols "extra") as (_ & _ & Hnone & _).
    apply Hnone. vm_compute; reflexivity.
Defined.

(** ** Row transcoder: the predicates as a gate, and what the passes keep *)

Lemma serialize_column_dom (dumps str : value → result string)
      (R : row_t) (item : string * string) (R' : row_t) :
  serialize_column dumps str R item = Ok R' → dom R' = dom R.
Proof.
  destruct item as [column tag]. rewrite serialize_column_unfold.
  destruct (tag_in tag JSON_SERIALIZABLE_COLUMN_TYPES);
    [| destruct (tag_in tag STRING_SERIALIZABLE_COLUMN_TYPES)];
    [| | by intros [= <-]];
    (destruct (R !! column) as [val |] eqn:Hval; [| done]);
    destruct val; try (by intros [= <-]);
    match goal with
    | |- context [match ?r with Ok _ => _ | Raise _ => _ end] =>
        destruct r; [| done]
    end;
    intros [= <-]; by apply dom_insert_lookup_L.
Qed.

Lemma deserialize_column_dom (loads : string → result value)
      (R : row_t) (item : string * string) (R' : row_t) :
  deserialize_column loads R item = Ok R' → dom R' = dom R.
Proof.
  destruct item as [column tag]. rewrite deserialize_column_unfold.
  destruct (tag_in tag JSON_SERIALIZABLE_COLUMN_TYPES); [| by intros [= <-]].
  destruct (R !! column) as [val |] eqn:Hval; [| done].
  destruct val; try (by intros [= <-]).
  - destruct (loads s); [| done]. intros [= <-]. by apply dom_insert_lookup_L.
  - destruct (String.eqb tag "list"); intros [= <-];
      [by apply dom_insert_lookup_L | done].
Qed.

(** X2.  The predicates are a sound gate: when [should_serialize_pandas]
    is false of a table, [serialize_columns] with that table returns any
    row as it is, whatever the codec and whether or not the row has the
    columns named; and likewise [should_deserialize_pandas] and
    [deserialize_columns]. *)
Theorem skipping_the_transcoder_is_sound
        (simplejson_dumps : value → result string)
        (simplejson_loads : string → result value)
        (str : value → result string)
        (T : column_types_t) (R : row_t) :
  (should_serialize_pandas T = false →
   serialize_columns simplejson_dumps str R T = Ok R)
  ∧ (should_deserialize_pandas T = false →
     deserialize_columns simplejson_loads R T = Ok R).
Proof.
  split; intros Hno.
  - apply for_items_skips. intros [column tag] Hin.
    rewrite serialize_column_unfold.
    destruct (tag_in tag JSON_SERIALIZABLE_COLUMN_TYPES
              || tag_in tag STRING_SERIALIZABLE_COLUMN_TYPES) eqn:Htag.
    + exfalso. apply not_true_iff_false in Hno. apply Hno.
      rewrite should_serialize_any, any_serialize_tag_iff.
      exists column, tag. split; [done |].
      apply orb_true_iff in Htag. rewrite !tag_in_spec in Htag.
      by apply elem_of_union.
    + apply orb_false_iff in Htag as [-> ->]. reflexivity.
  - apply for_items_skips. intros [column tag] Hin.
    rewrite deserialize_column_unfold.
    destruct (tag_in tag JSON_SERIALIZABLE_COLUMN_TYPES) eqn:Htag;
      [| reflexivity].
    exfalso. apply not_true_iff_false in Hno. apply Hno.
    rewrite should_deserialize_any, any_deserialize_tag_iff.
    exists column, tag. split; [done | by apply tag_in_spec].
Qed.

Lemma skipping_the_transcoder_is_sound_witness :
  serialize_columns RejectingCodec.dumps RejectingCodec.str
    {[ "n" := VInt 1 ]} [("n", "int64"); ("absent", "complex")]
  = Ok {[ "n" := VInt 1 ]}
  ∧ deserialize_columns RejectingCodec.loads
      {[ "n" := VStr "[1]" ]} [("n", "ObjectId"); ("absent", "int64")]
    = Ok {[ "n" := VStr "[1]" ]}.
Proof.
  split.
  - apply (skipping_the_transcoder_is_sound
             RejectingCodec.dumps RejectingCodec.loads RejectingCodec.str
             [("n", "int64"); ("absent", "complex")] {[ "n" := VInt 1 ]}).
    vm_compute; reflexivity.
  - apply (skipping_the_transcoder_is_sound
             RejectingCodec.dumps RejectingCodec.loads RejectingCodec.str
             [("n", "ObjectId"); ("absent", "int64")] {[ "n" := VStr "[1]" ]}).
    vm_compute; reflexivity.
Defined.

(** X3.  Neither pass adds or drops a column: the row returned has the
    columns of the row given. *)
Theorem transcoding_keeps_the_columns
        (simplejson_dumps : value → result string)
        (simplejson_loads : string → result value)
        (str : value → result string)
        (T : column_types_t) (R : row_t) :
  (∀ R', serialize_columns simplejson_dumps str R T = Ok R' → dom R' = dom R)
  ∧ (∀ R', deserialize_columns simplejson_loads R T = Ok R' → dom R' = dom R).
Proof.
  split; intros R'.
  - apply (for_items_keeps (serialize_column simplejson_dumps str) dom).
    intros s0 item s1. apply serialize_column_dom.
  - apply (for_items_keeps (deserialize_column simplejson_loads) dom).
    intros s0 item s1. apply deserialize_column_dom.
Qed.

(** X4.  After [serialize_columns] every column with a serializable tag
    holds a [str] or [None]: nothing structured is left in it. *)
Theorem serialized_columns_hold_text
        (simplejson_dumps : value → result string)
        (str : value → result string)
        (T : column_types_t) (R R' : row_t) (c tag : string) :
  NoDup T.*1 →
  serialize_columns simplejson_dumps str R T = Ok R' →
  (c, tag) ∈ T →
  tag ∈ JSON_SERIALIZABLE_COLUMN_TYPES ∪ STRING_SERIALIZABLE_COLUMN_TYPES →
  R' !! c = Some VNone ∨ ∃ text, R' !! c = Some (VStr text).
Proof.
  intros Hnd Hrun Hin Htag.
  destruct (proj1 (serialize_columns_returns_iff simplejson_dumps str T R Hnd)
              (ex_intro _ R' Hrun) c tag Hin) as [Hj Hs].
  apply elem_of_union in Htag as [Htag | Htag].
  - destruct (Hj Htag) as (val & Hval & _).
    pose proof (serialize_columns_json simplejson_dumps str T R R' c tag val
                  Hnd Hin Htag Hval Hrun) as Hout.
    destruct (is_not_None val); [right | by left].
    destruct Hout as (encoded & _ & ->). by exists encoded.
  - destruct (Hs Htag) as (val & Hval & _).
    pose proof (serialize_columns_string simplejson_dumps str T R R' c tag val
                  Hnd Hin Htag Hval Hrun) as Hout.
    destruct (is_not_None val); [right | by left].
    destruct Hout as (text & _ & ->). by exists text.
Qed.

Lemma serialized_columns_hold_text_witness :
  ∃ R', serialize_columns ReferenceJson.dumps ReferenceJson.str
          Samples.row Samples.column_types = Ok R'
        ∧ (R' !! "payload" = Some VNone
           ∨ ∃ text, R' !! "payload" = Some (VStr text)).
Proof.
  destruct (serialize_columns ReferenceJson.dumps ReferenceJson.str
              Samples.row Samples.column_types) as [R' | e] eqn:Hrun;
    [| vm_compute in Hrun; discriminate Hrun].
  exists R'. split; [reflexivity |].
  apply (serialized_columns_hold_text ReferenceJson.dumps ReferenceJson.str
           Samples.column_types Samples.row R' "payload" "dict");
    [compute_done | exact Hrun | compute_done | compute_done].
Defined.

(** ** Row transcoder: how the passes compose *)

(** X5.  A column with a string-serializable tag is not restored by
    [deserialize_columns]: after both passes it holds the text [str] gave
    for its value. *)
Theorem string_serialized_column_stays_text
        (simplejson_dumps : value → result string)
        (simplejson_loads : string → result value)
        (str : value → result string)
        (T : column_types_t) (R R1 R2 : row_t) (c tag : string) (val : value) :
  NoDup T.*1 →
  (c, tag) ∈ T → tag ∈ STRING_SERIALIZABLE_COLUMN_TYPES →
  R !! c = Some val → is_not_None val = true →
  serialize_columns simplejson_dumps str R T = Ok R1 →
  deserialize_columns simplejson_loads R1 T = Ok R2 →
  ∃ text, str val = Ok text ∧ R2 !! c = Some (VStr text).
Proof.
  intros Hnd Hin Htag Hval Hnn Hser Hde.
  pose proof (serialize_columns_string simplejson_dumps str T R R1 c tag val
                Hnd Hin Htag Hval Hser) as Hout.
  rewrite Hnn in Hout. destruct Hout as (text & Htext & Hcol).
  exists text. split; [done |].
  rewrite (deserialize_columns_other_tag simplejson_loads T R1 R2 c tag
             Hnd Hin); [done | | done].
  intros Hj. by apply (JSON_STRING_disjoint tag).
Qed.

Lemma string_serialized_column_stays_text_witness :
  ∃ R1 R2 text,
    serialize_columns ReferenceJson.dumps ReferenceJson.str
      Samples.row Samples.column_types = Ok R1
    ∧ deserialize_columns ReferenceJson.loads R1 Samples.column_types = Ok R2
    ∧ ReferenceJson.str (VObject "ObjectId" "65f0c0ffee") = Ok text
    ∧ R2 !! "_id" = Some (VStr text).
Proof.
  destruct (serialize_columns ReferenceJson.dumps ReferenceJson.str
              Samples.row Samples.column_types) as [R1 | e] eqn:Hser;
    [| vm_compute in Hser; discriminate Hser].
  destruct (deserialize_columns ReferenceJson.loads R1 Samples.column_types)
    as [R2 | e] eqn:Hde.
  2: { vm_compute in Hser. injection Hser as <-.
       vm_compute in Hde. discriminate Hde. }
  destruct (string_serialized_column_stays_text
              ReferenceJson.dumps ReferenceJson.loads ReferenceJson.str
              Samples.column_types Samples.row R1 R2 "_id" "ObjectId"
              (VObject "ObjectId" "65f0c0ffee")) as (text & Htext & Hcol);
    [compute_done | compute_done | compute_done | vm_compute; reflexivity
     | reflexivity | exact Hser | exact Hde |].
  by exists R1, R2, text.
Defined.

(** X6.  The order of the items of [column_types] does not matter to what
    is returned: with the items in another order each pass returns the same
    row, when it returns. *)
Theorem transcoding_ignores_item_order
        (simplejson_dumps : value → result string)
        (simplejson_loads : string → result value)
        (str : value → result string)
        (T T' : column_types_t) (R : row_t) :
  NoDup T.*1 → T ≡ₚ T' →
  (∀ R', serialize_columns simplejson_dumps str R T = Ok R'
         ↔ serialize_columns simplejson_dumps str R T' = Ok R')
  ∧ (∀ R', deserialize_columns simplejson_loads R T = Ok R'
           ↔ deserialize_columns simplejson_loads R T' = Ok R').
Proof.
  intros Hnd Hperm.
  assert (Hnd' : NoDup T'.*1) by (by rewrite <- Hperm).
  assert (Hser : ∀ A B R', NoDup A.*1 → A ≡ₚ B →
            serialize_columns simplejson_dumps str R A = Ok R' →
            serialize_columns simplejson_dumps str R B = Ok R').
  { intros A B R' HA HAB Hrun.
    destruct (for_items_reordered_returns (λ s : row_t, s)
                (serialize_column simplejson_dumps str)
                (serialize_column_frame simplejson_dumps str)
                (serialize_column_local simplejson_dumps str)
                A B R R' HA HAB Hrun) as (R'' & Hrun').
    unfold serialize_columns. rewrite Hrun'. f_equal. apply map_eq. intros c.
    symmetry.
    apply (for_items_reordered (λ s : row_t, s)
             (serialize_column simplejson_dumps str)
             (serialize_column_frame simplejson_dumps str)
             (serialize_column_local simplejson_dumps str)
             A B R R' R'' c HA HAB Hrun Hrun'). }
  assert (Hde : ∀ A B R', NoDup A.*1 → A ≡ₚ B →
            deserialize_columns simplejson_loads R A = Ok R' →
            deserialize_columns simplejson_loads R B = Ok R').
  { intros A B R' HA HAB Hrun.
    destruct (for_items_reordered_returns (λ s : row_t, s)
                (deserialize_column simplejson_loads)
                (deserialize_column_frame simplejson_loads)
                (deserialize_column_local simplejson_loads)
                A B R R' HA HAB Hrun) as (R'' & Hrun').
    unfold deserialize_columns. rewrite Hrun'. f_equal. apply map_eq.
    intros c. symmetry.
    apply (for_items_reordered (λ s : row_t, s)
             (deserialize_column simplejson_loads)
             (deserialize_column_frame simplejson_loads)
             (deserialize_column_local simplejson_loads)
             A B R R' R'' c HA HAB Hrun Hrun'). }
  split; intros R'; split.
  - by apply Hser.
  - by apply Hser.
  - by apply Hde.
  - by apply Hde.
Qed.

Lemma transcoding_ignores_item_order_witness :
  serialize_columns ReferenceJson.dumps ReferenceJson.str Samples.row
    (reverse Samples.column_types)
  = serialize_columns ReferenceJson.dumps ReferenceJson.str Samples.row
      Samples.column_types.
Proof.
  destruct (serialize_columns ReferenceJson.dumps ReferenceJson.str
              Samples.row Samples.column_types) as [R' | e] eqn:Hrun;
    [| vm_compute in Hrun; discriminate Hrun].
  apply (transcoding_ignores_item_order
           ReferenceJson.dumps ReferenceJson.loads ReferenceJson.str
           Samples.column_types (reverse Samples.column_types) Samples.row).
  - compute_done.
  - symmetry. apply reverse_Permutation.
  - exact Hrun.
Defined.

(** X7.  A whole row comes back: when every column with a JSON tag holds
    [None] or a value that the codec decodes back from its encoding, and
    every column with a string-serializable tag holds [None],
    [serialize_columns] followed by [deserialize_columns] returns the row
    it was given, every column of it. *)
Theorem whole_row_round_trip
        (simplejson_dumps : value → result string)
        (simplejson_loads : string → result value)
        (str : value → result string)
        (T : column_types_t) (R : row_t) :
  NoDup T.*1 →
  (∀ c tag, (c, tag) ∈ T → tag ∈ JSON_SERIALIZABLE_COLUMN_TYPES →
     ∃ val, R !! c = Some val
            ∧ (val = VNone
               ∨ (encoded ← simplejson_dumps val; simplejson_loads encoded)
                 = Ok val)) →
  (∀ c tag, (c, tag) ∈ T → tag ∈ STRING_SERIALIZABLE_COLUMN_TYPES →
     R !! c = Some VNone) →
  ∃ R1, serialize_columns simplejson_dumps str R T = Ok R1
        ∧ deserialize_columns simplejson_loads R1 T = Ok R.
Proof.
  intros Hnd Hjson Hstring.
  assert (Hok : row_transcodable simplejson_dumps simplejson_loads str R T
                = true).
  { unfold row_transcodable. apply forallb_forall. intros [c tag] Hin.
    apply list_elem_of_In in Hin. unfold column_transcodable.
    destruct (tag_in tag JSON_SERIALIZABLE_COLUMN_TYPES) eqn:Htj.
    - apply tag_in_spec in Htj.
      destruct (Hjson c tag Hin Htj) as (val & -> & [-> | Hrt]); [done |].
      apply orb_true_iff. right. unfold dumps_then_loads_ok.
      destruct (simplejson_dumps val) as [encoded |]; [| done].
      simpl in Hrt. by rewrite Hrt.
    - destruct (tag_in tag STRING_SERIALIZABLE_COLUMN_TYPES) eqn:Hts; [| done].
      apply tag_in_spec in Hts. by rewrite (Hstring c tag Hin Hts). }
  apply (transcode_returns_iff simplejson_dumps simplejson_loads str T R Hnd)
    in Hok as (R1 & R2 & Hser & Hde).
  exists R1. split; [done |]. rewrite Hde. f_equal. apply map_eq. intros c.
  destruct (decide (c ∈ T.*1)) as [Hc | Hc].
  2: { rewrite (deserialize_columns_frame simplejson_loads T R1 R2 c Hc Hde).
       by apply (serialize_columns_frame simplejson_dumps str T). }
  apply list_elem_of_fmap in Hc as ([c' tag] & -> & Hin). simpl.
  destruct (decide (tag ∈ JSON_SERIALIZABLE_COLUMN_TYPES)) as [Htj | Htj].
  - destruct (Hjson c' tag Hin Htj) as (val & Hval & Hcase).
    pose proof (serialize_columns_json simplejson_dumps str T R R1 c' tag val
                  Hnd Hin Htj Hval Hser) as Hout.
    destruct Hcase as [-> | Hrt].
    + simpl in Hout. rewrite Hval.
      apply (deserialize_columns_json simplejson_loads T R1 R2 c' tag VNone
               Hnd Hin Htj Hout Hde).
    + destruct (is_not_None val) eqn:Hnn.
      * destruct Hout as (encoded & Hdumps & Hcol).
        rewrite Hdumps in Hrt. simpl in Hrt.
        destruct (deserialize_columns_json simplejson_loads T R1 R2 c' tag
                    (VStr encoded) Hnd Hin Htj Hcol Hde)
          as (decoded & Hl & ->). congruence.
      * destruct val; try discriminate Hnn. rewrite Hval.
        apply (deserialize_columns_json simplejson_loads T R1 R2 c' tag VNone
                 Hnd Hin Htj Hout Hde).
  - rewrite (deserialize_columns_other_tag simplejson_loads T R1 R2 c' tag
               Hnd Hin Htj Hde).
    destruct (decide (tag ∈ STRING_SERIALIZABLE_COLUMN_TYPES)) as [Hts | Hts].
    + rewrite (Hstring c' tag Hin Hts).
      apply (serialize_columns_keep_None simplejson_dumps str T R R1 c');
        [by apply (Hstring c' tag) | done].
    + by apply (serialize_columns_other_tag simplejson_dumps str T R R1 c' tag).
Qed.

Lemma whole_row_round_trip_witness :
  ∃ R1, serialize_columns ReferenceJson.dumps ReferenceJson.str
          (<[ "_id" := VNone ]> Samples.row) Samples.column_types = Ok R1
        ∧ deserialize_columns ReferenceJson.loads R1 Samples.column_types
          = Ok (<[ "_id" := VNone ]> Samples.row).
Proof.
  apply (whole_row_round_trip
           ReferenceJson.dumps ReferenceJson.loads ReferenceJson.str
           Samples.column_types (<[ "_id" := VNone ]> Samples.row)).
  - compute_done.
  - intros c tag Hin Htag. apply JSON_tags in Htag.
    unfold Samples.column_types in Hin.
    repeat (apply elem_of_cons in Hin as [[= -> ->] | Hin]);
      try (destruct Htag; discriminate); try (by inversion Hin).
    + eexists. split; [vm_compute; reflexivity |].
      right. vm_compute; reflexivity.
    + eexists. split; [vm_compute; reflexivity |].
      right. vm_compute; reflexivity.
    + eexists. split; [vm_compute; reflexivity |]. by left.
  - intros c tag Hin Htag. apply STRING_tags in Htag. subst tag.
    unfold Samples.column_types in Hin.
    repeat (apply elem_of_cons in Hin as [[= ->] | Hin]);
      try discriminate; try (by inversion Hin).
    vm_compute; reflexivity.
Defined.

(** X8.  Reading then writing: after [deserialize_columns] and then
    [serialize_columns], a column with a JSON tag that held a string holds
    the encoding of what the string decoded to, except that a string that
    decoded to [None] (the document [null]) is not written back: the
    column holds [None]. *)
Theorem deserialize_then_serialize
        (simplejson_dumps : value → result string)
        (simplejson_loads : string → result value)
        (str : value → result string)
        (T : column_types_t) (R R1 R2 : row_t) (c tag s : string) :
  NoDup T.*1 →
  (c, tag) ∈ T → tag ∈ JSON_SERIALIZABLE_COLUMN_TYPES →
  R !! c = Some (VStr s) →
  deserialize_columns simplejson_loads R T = Ok R1 →
  serialize_columns simplejson_dumps str R1 T = Ok R2 →
  ∃ decoded, simplejson_loads s = Ok decoded
    ∧ if is_not_None decoded
      then ∃ encoded, simplejson_dumps decoded = Ok encoded
                      ∧ R2 !! c = Some (VStr encoded)
      else R2 !! c = Some VNone.
Proof.
  intros Hnd Hin Htag Hval Hde Hser.
  destruct (deserialize_columns_json simplejson_loads T R R1 c tag (VStr s)
              Hnd Hin Htag Hval Hde) as (decoded & Hl & Hcol).
  exists decoded. split; [done |].
  apply (serialize_columns_json simplejson_dumps str T R1 R2 c tag decoded
           Hnd Hin Htag Hcol Hser).
Qed.

Lemma deserialize_then_serialize_witness :
  ∃ R1 R2,
    deserialize_columns ReferenceJson.loads
      {[ "payload" := VStr "null"; "tags" := VStr "[1, 2]" ]}
      [("payload", "dict"); ("tags", "list")] = Ok R1
    ∧ serialize_columns ReferenceJson.dumps ReferenceJson.str R1
        [("payload", "dict"); ("tags", "list")] = Ok R2
    ∧ R2 !! "payload" = Some VNone.
Proof.
  destruct (deserialize_columns ReferenceJson.loads
              {[ "payload" := VStr "null"; "tags" := VStr "[1, 2]" ]}
              [("payload", "dict"); ("tags", "list")]) as [R1 | e] eqn:Hde;
    [| vm_compute in Hde; discriminate Hde].
  destruct (serialize_columns ReferenceJson.dumps ReferenceJson.str R1
              [("payload", "dict"); ("tags", "list")]) as [R2 | e] eqn:Hser.
  2: { vm_compute in Hde. injection Hde as <-.
       vm_compute in Hser. discriminate Hser. }
  exists R1, R2. split; [reflexivity | split; [exact Hser |]].
  destruct (deserialize_then_serialize
              ReferenceJson.dumps ReferenceJson.loads ReferenceJson.str
              [("payload", "dict"); ("tags", "list")]
              {[ "payload" := VStr "null"; "tags" := VStr "[1, 2]" ]}
              R1 R2 "payload" "dict" "null")
    as (decoded & Hl & Hcol);
    [compute_done | compute_done | compute_done | vm_compute; reflexivity
     | exact Hde | exact Hser |].
  vm_compute in Hl. injection Hl as <-. exact Hcol.
Defined.

(** X9.  [serialize_columns] is not to be applied twice: the second pass
    finds the text of the first in a column with a JSON tag and encodes
    that text again. *)
Theorem serialize_twice_encodes_twice
        (simplejson_dumps : value → result string)
        (str : value → result string)
        (T : column_types_t) (R R1 R2 : row_t) (c tag : string) (val : value) :
  NoDup T.*1 →
  (c, tag) ∈ T → tag ∈ JSON_SERIALIZABLE_COLUMN_TYPES →
  R !! c = Some val → is_not_None val = true →
  serialize_columns simplejson_dumps str R T = Ok R1 →
  serialize_columns simplejson_dumps str R1 T = Ok R2 →
  ∃ once twice, simplejson_dumps val = Ok once
    ∧ simplejson_dumps (VStr once) = Ok twice
    ∧ R1 !! c = Some (VStr once)
    ∧ R2 !! c = Some (VStr twice).
Proof.
  intros Hnd Hin Htag Hval Hnn Hser1 Hser2.
  pose proof (serialize_columns_json simplejson_dumps str T R R1 c tag val
                Hnd Hin Htag Hval Hser1) as Hout.
  rewrite Hnn in Hout. destruct Hout as (once & Honce & Hcol1).
  destruct (serialize_columns_json simplejson_dumps str T R1 R2 c tag
              (VStr once) Hnd Hin Htag Hcol1 Hser2) as (twice & Htwice & Hcol2).
  by exists once, twice.
Qed.

Lemma serialize_twice_encodes_twice_witness :
  ∃ R1 R2,
    serialize_columns ReferenceJson.dumps ReferenceJson.str
      {[ "tags" := VList [VInt 1; VInt 2] ]} [("tags", "list")] = Ok R1
    ∧ serialize_columns ReferenceJson.dumps ReferenceJson.str R1
        [("tags", "list")] = Ok R2
    ∧ R1 !! "tags" = Some (VStr "[1, 2]")
    ∧ R2 !! "tags" = Some (VStr (ReferenceJson.quoted "[1, 2]")).
Proof.
  destruct (serialize_columns ReferenceJson.dumps ReferenceJson.str
              {[ "tags" := VList [VInt 1; VInt 2] ]} [("tags", "list")])
    as [R1 | e] eqn:Hser1; [| vm_compute in Hser1; discriminate Hser1].
  destruct (serialize_columns ReferenceJson.dumps ReferenceJson.str R1
              [("tags", "list")]) as [R2 | e] eqn:Hser2.
  2: { vm_compute in Hser1. injection Hser1 as <-.
       vm_compute in Hser2. discriminate Hser2. }
  exists R1, R2. split; [reflexivity | split; [exact Hser2 |]].
  destruct (serialize_twice_encodes_twice
              ReferenceJson.dumps ReferenceJson.str [("tags", "list")]
              {[ "tags" := VList [VInt 1; VInt 2] ]} R1 R2 "tags" "list"
              (VList [VInt 1; VInt 2]))
    as (once & twice & Honce & Htwice & Hc1 & Hc2);
    [compute_done | compute_done | compute_done | vm_compute; reflexivity
     | reflexivity | exact Hser1 | exact Hser2 |].
  vm_compute in Honce. injection Honce as <-.
  vm_compute in Htwice. injection Htwice as <-.
  split; [exact Hc1 | exact Hc2].
Defined.

(** ** Column caster: what is printed, and what is kept *)

Lemma omap_agree {A B} (f g : A → option B) (l : list A) :
  (∀ x, x ∈ l → f x = g x) → omap f l = omap g l.
Proof.
  induction l as [| x l IH]; intros Hfg; [done |]. csimpl.
  rewrite (Hfg x) by left. rewrite IH; [done |].
  intros y Hy. apply Hfg. by right.
Qed.

Section TolerantLoopLog.
Variable body :
  frame_t * printed_t → string * string → result (frame_t * printed_t).
Variable attempt : string → string → option series → option (result series).

Hypothesis body_eq : ∀ st column tag,
  body st (column, tag) =
  Ok (match attempt column tag (st.1 !! column) with
      | None => st
      | Some (Ok casted) => (<[column := casted]> st.1, st.2)
      | Some (Raise e) => (st.1, (st.2 ++ [e])%list)
      end).

Lemma tolerant_body_local (s1 s2 : frame_t * printed_t) (column tag : string)
      (s1' : frame_t * printed_t) :
  s1.1 !! column = s2.1 !! column → body s1 (column, tag) = Ok s1' →
  ∃ s2', body s2 (column, tag) = Ok s2' ∧ s2'.1 !! column = s1'.1 !! column.
Proof.
  rewrite !body_eq. intros Heq [= <-]. eexists. split; [reflexivity |].
  rewrite <- Heq.
  destruct (attempt column tag (s1.1 !! column)) as [[casted | e] |]; simpl;
    [by rewrite !lookup_insert_eq | done | done].
Qed.

(** What is printed: the failures of the items, one each, in the order of
    the items. *)
Lemma tolerant_loop_printed (T : column_types_t) (st st' : frame_t * printed_t) :
  NoDup T.*1 → for_items body T st = Ok st' →
  st'.2 = (st.2 ++ omap (attempt_failure attempt st.1) T)%list.
Proof.
  revert st. induction T as [| [c0 t0] rest IH]; intros st Hnd.
  - intros [= <-]. simpl. by rewrite app_nil_r.
  - rewrite fmap_cons in Hnd. apply NoDup_cons in Hnd as [Hfresh Hnd].
    simpl. rewrite bind_Ok. intros (st1 & Hstep & Hrest).
    rewrite (IH st1 Hnd Hrest).
    assert (Hsame : omap (attempt_failure attempt st1.1) rest
                    = omap (attempt_failure attempt st.1) rest).
    { apply omap_agree. intros [c t] Hin. unfold attempt_failure. simpl.
      rewrite (tolerant_body_frame body attempt body_eq st st1 c0 t0 c Hstep);
        [done |].
      intros ->. apply Hfresh. apply list_elem_of_fmap. by exists (c0, t). }
    rewrite Hsame. rewrite body_eq in Hstep. injection Hstep as <-.
    unfold attempt_failure at 2. simpl.
    destruct (attempt c0 t0 (st.1 !! c0)) as [[casted | e] |]; simpl;
      [done | | done].
    by rewrite <- app_assoc.
Qed.
End TolerantLoopLog.

Lemma astype_failure_eq (astype : series → string → result series)
      (df : frame_t) (item : string * string) :
  attempt_failure (astype_attempt astype) df item
  = astype_failure astype df item.
Proof.
  destruct item as [column tag].
  unfold attempt_failure, astype_attempt, astype_failure, assign_astype,
    getitem.
  simpl. destruct (tag_in tag CAST_TYPE_COLUMN_TYPES); [| reflexivity].
  destruct (df !! column) as [col |]; simpl; [| reflexivity].
  destruct (astype col tag); reflexivity.
Qed.

Lemma polars_failure_eq
      (polars_cast : series → polars_dtype → result series)
      (df : frame_t) (item : string * string) :
  attempt_failure (polars_attempt polars_cast) df item
  = polars_failure polars_cast df item.
Proof.
  destruct item as [column tag].
  unfold attempt_failure, polars_attempt, polars_failure, DataFrame_cast.
  simpl. destruct (POLARS_CAST_TYPE_COLUMN_TYPES !! tag) as [target |];
    [| reflexivity].
  destruct (df !! column) as [col |]; simpl; [| reflexivity].
  destruct (polars_cast col target); reflexivity.
Qed.

(** X10.  What the casters print is exactly the exceptions of the castable
    columns whose cast fails, one for each, in the order of the items of
    [column_types]; nothing is printed when no cast fails. *)
Theorem casters_print_each_failure_once
        (astype : series → string → result series)
        (polars_cast : series → polars_dtype → result series)
        (T : column_types_t) (df : frame_t) :
  NoDup T.*1 →
  (∃ df', cast_column_types astype df T
          = Ok (df', omap (astype_failure astype df) T))
  ∧ (∃ df', cast_column_types_polars polars_cast df T
            = Ok (df', omap (polars_failure polars_cast df) T)).
Proof.
  intros Hnd. split.
  - destruct (tolerant_loop (cast_column astype) (astype_attempt astype)
                (cast_column_eq astype) T (df, []) Hnd)
      as ([df' printed] & Hrun & _).
    exists df'. unfold cast_column_types. rewrite Hrun. do 2 f_equal.
    pose proof (tolerant_loop_printed (cast_column astype)
                  (astype_attempt astype) (cast_column_eq astype)
                  T (df, []) (df', printed) Hnd Hrun) as Hlog.
    simpl in Hlog. rewrite Hlog.
    apply omap_agree. intros item _. apply astype_failure_eq.
  - destruct (tolerant_loop (cast_column_polars polars_cast)
                (polars_attempt polars_cast)
                (cast_column_polars_eq polars_cast) T (df, []) Hnd)
      as ([df' printed] & Hrun & _).
    exists df'. unfold cast_column_types_polars. rewrite Hrun. do 2 f_equal.
    pose proof (tolerant_loop_printed (cast_column_polars polars_cast)
                  (polars_attempt polars_cast)
                  (cast_column_polars_eq polars_cast)
                  T (df, []) (df', printed) Hnd Hrun) as Hlog.
    simpl in Hlog. rewrite Hlog.
    apply omap_agree. intros item _. apply polars_failure_eq.
Qed.

Lemma casters_print_each_failure_once_witness :
  ∃ df', cast_column_types ReferenceCast.astype ReferenceCast.table
           ReferenceCast.column_types
         = Ok (df', [Exception "ValueError" "invalid literal";
                     KeyError "gone"]).
Proof.
  destruct (casters_print_each_failure_once
              ReferenceCast.astype ReferenceCast.polars_cast
              ReferenceCast.column_types ReferenceCast.table)
    as [(df' & Hrun) _]; [compute_done |].
  exists df'. rewrite Hrun. do 2 f_equal.
Defined.

Section TolerantLoopOrder.
Variable body :
  frame_t * printed_t → string * string → result (frame_t * printed_t).
Variable attempt : string → string → option series → option (result series).

Hypothesis body_eq : ∀ st column tag,
  body st (column, tag) =
  Ok (match attempt column tag (st.1 !! column) with
      | None => st
      | Some (Ok casted) => (<[column := casted]> st.1, st.2)
      | Some (Raise e) => (st.1, (st.2 ++ [e])%list)
      end).

Lemma tolerant_loop_reordered (T T' : column_types_t)
      (st : frame_t * printed_t) :
  NoDup T.*1 → T ≡ₚ T' →
  ∃ df' printed printed',
    for_items body T st = Ok (df', printed)
    ∧ for_items body T' st = Ok (df', printed')
    ∧ printed ≡ₚ printed'.
Proof.
  intros Hnd Hperm.
  assert (Hnd' : NoDup T'.*1) by (by rewrite <- Hperm).
  destruct (tolerant_loop body attempt body_eq T st Hnd)
    as ([df1 p1] & Hrun & _).
  destruct (tolerant_loop body attempt body_eq T' st Hnd')
    as ([df2 p2] & Hrun' & _).
  pose proof (tolerant_loop_printed body attempt body_eq T st _ Hnd Hrun)
    as Hp1.
  pose proof (tolerant_loop_printed body attempt body_eq T' st _ Hnd' Hrun')
    as Hp2.
  simpl in Hp1, Hp2.
  assert (Hdf : df1 = df2).
  { apply map_eq. intros c.
    apply (for_items_reordered (λ s : frame_t * printed_t, s.1) body
             (λ s column tag s' c0,
                tolerant_body_frame body attempt body_eq s s' column tag c0)
             (tolerant_body_local body attempt body_eq)
             T T' st (df1, p1) (df2, p2) c Hnd Hperm Hrun Hrun'). }
  subst df2. exists df1, p1, p2. split; [done | split; [done |]].
  rewrite Hp1, Hp2. by rewrite Hperm.
Qed.
End TolerantLoopOrder.

Lemma cast_column_dom (astype : series → string → result series)
      (st : frame_t * printed_t) (item : string * string)
      (st' : frame_t * printed_t) :
  cast_column astype st item = Ok st' → dom st'.1 = dom st.1.
Proof.
  destruct item as [column tag]. rewrite cast_column_eq. intros [= <-].
  destruct (tag_in tag CAST_TYPE_COLUMN_TYPES); [| done].
  destruct (st.1 !! column) as [col |] eqn:Hcol; [| done].
  destruct (astype col tag); [| done]. simpl. by apply dom_insert_lookup_L.
Qed.

Lemma cast_column_polars_dom
      (polars_cast : series → polars_dtype → result series)
      (st : frame_t * printed_t) (item : string * string)
      (st' : frame_t * printed_t) :
  cast_column_polars polars_cast st item = Ok st' → dom st'.1 = dom st.1.
Proof.
  destruct item as [column tag]. rewrite cast_column_polars_eq. intros [= <-].
  destruct (POLARS_CAST_TYPE_COLUMN_TYPES !! tag) as [target |]; [| done].
  destruct (st.1 !! column) as [col |] eqn:Hcol; [| done].
  destruct (polars_cast col target); [| done]. simpl.
  by apply dom_insert_lookup_L.
Qed.

(** X11.  The casters neither add nor drop a column: the table returned
    has the columns of the table given, also when [column_types] names a
    column the table does not have. *)
Theorem casters_keep_the_columns
        (astype : series → string → result series)
        (polars_cast : series → polars_dtype → result series)
        (T : column_types_t) (df : frame_t) :
  (∀ df' printed, cast_column_types astype df T = Ok (df', printed) →
     dom df' = dom df)
  ∧ (∀ df' printed,
       cast_column_types_polars polars_cast df T = Ok (df', printed) →
       dom df' = dom df).
Proof.
  split; intros df' printed Hrun.
  - apply (for_items_keeps (cast_column astype) (λ st, dom st.1)
             T (df, []) (df', printed)); [| exact Hrun].
    intros s0 item s1. apply cast_column_dom.
  - apply (for_items_keeps (cast_column_polars polars_cast) (λ st, dom st.1)
             T (df, []) (df', printed)); [| exact Hrun].
    intros s0 item s1. apply cast_column_polars_dom.
Qed.

(** X12.  Each caster acts on its own tags only: with no castable tag in
    [column_types] it returns the table as given and prints nothing,
    whatever the cast would do.  The tags ["int64"] and ["float64"] are
    not castable for [cast_column_types_polars], and ["Float64"] is not
    for [cast_column_types]. *)
Theorem casters_skip_foreign_tags
        (astype : series → string → result series)
        (polars_cast : series → polars_dtype → result series)
        (T : column_types_t) (df : frame_t) :
  ((∀ c tag, (c, tag) ∈ T → tag ∉ CAST_TYPE_COLUMN_TYPES) →
   cast_column_types astype df T = Ok (df, []))
  ∧ ((∀ c tag, (c, tag) ∈ T → POLARS_CAST_TYPE_COLUMN_TYPES !! tag = None) →
     cast_column_types_polars polars_cast df T = Ok (df, []))
  ∧ ((∀ c tag, (c, tag) ∈ T → tag = "int64" ∨ tag = "float64") →
     cast_column_types_polars polars_cast df T = Ok (df, []))
  ∧ ((∀ c tag, (c, tag) ∈ T → tag = "Float64") →
     cast_column_types astype df T = Ok (df, [])).
Proof.
  assert (Hpandas : (∀ c tag, (c, tag) ∈ T → tag ∉ CAST_TYPE_COLUMN_TYPES) →
                    cast_column_types astype df T = Ok (df, [])).
  { intros Hno. apply for_items_skips. intros [c tag] Hin.
    rewrite cast_column_eq. specialize (Hno c tag Hin).
    apply tag_in_false in Hno. by rewrite Hno. }
  assert (Hpolars :
            (∀ c tag, (c, tag) ∈ T →
                      POLARS_CAST_TYPE_COLUMN_TYPES !! tag = None) →
            cast_column_types_polars polars_cast df T = Ok (df, [])).
  { intros Hno. apply for_items_skips. intros [c tag] Hin.
    rewrite cast_column_polars_eq. by rewrite (Hno c tag Hin). }
  split; [exact Hpandas | split; [exact Hpolars | split]].
  - intros Htags. apply Hpolars. intros c tag Hin.
    destruct (Htags c tag Hin) as [-> | ->]; reflexivity.
  - intros Htags. apply Hpandas. intros c tag Hin.
    rewrite (Htags c tag Hin). apply tag_in_false. reflexivity.
Qed.

Lemma casters_skip_foreign_tags_witness :
  cast_column_types_polars ReferenceCast.polars_cast ReferenceCast.table
    [("qty", "int64"); ("price", "float64")]
  = Ok (ReferenceCast.table, [])
  ∧ cast_column_types ReferenceCast.astype ReferenceCast.table
      [("qty", "Float64")]
    = Ok (ReferenceCast.table, []).
Proof.
  split.
  - apply (casters_skip_foreign_tags
             ReferenceCast.astype ReferenceCast.polars_cast
             [("qty", "int64"); ("price", "float64")] ReferenceCast.table).
    intros c tag Hin.
    repeat (apply elem_of_cons in Hin as [[= -> ->] | Hin]);
      [by left | by right | inversion Hin].
  - apply (casters_skip_foreign_tags
             ReferenceCast.astype ReferenceCast.polars_cast
             [("qty", "Float64")] ReferenceCast.table).
    intros c tag Hin.
    apply list_elem_of_singleton in Hin as [= -> ->]. reflexivity.
Defined.

(** X13.  The order of the items of [column_types] does not matter to the
    table a caster returns; what is printed is the same up to order. *)
Theorem casters_ignore_item_order
        (astype : series → string → result series)
        (polars_cast : series → polars_dtype → result series)
        (T T' : column_types_t) (df : frame_t) :
  NoDup T.*1 → T ≡ₚ T' →
  (∃ df' printed printed',
     cast_column_types astype df T = Ok (df', printed)
     ∧ cast_column_types astype df T' = Ok (df', printed')
     ∧ printed ≡ₚ printed')
  ∧ (∃ df' printed printed',
       cast_column_types_polars polars_cast df T = Ok (df', printed)
       ∧ cast_column_types_polars polars_cast df T' = Ok (df', printed')
       ∧ printed ≡ₚ printed').
Proof.
  intros Hnd Hperm. split.
  - apply (tolerant_loop_reordered (cast_column astype)
             (astype_attempt astype) (cast_column_eq astype)
             T T' (df, []) Hnd Hperm).
  - apply (tolerant_loop_reordered (cast_column_polars polars_cast)
             (polars_attempt polars_cast) (cast_column_polars_eq polars_cast)
             T T' (df, []) Hnd Hperm).
Qed.

Lemma casters_ignore_item_order_witness :
  ∃ df' printed printed',
    cast_column_types ReferenceCast.astype ReferenceCast.table
      ReferenceCast.column_types = Ok (df', printed)
    ∧ cast_column_types ReferenceCast.astype ReferenceCast.table
        (reverse ReferenceCast.column_types) = Ok (df', printed')
    ∧ printed ≡ₚ printed'.
Proof.
  apply (casters_ignore_item_order
           ReferenceCast.astype ReferenceCast.polars_cast
           ReferenceCast.column_types (reverse ReferenceCast.column_types)
           ReferenceCast.table).
  - compute_done.
  - symmetry. apply reverse_Permutation.
Defined.

(** ** Table partitioner: the partition count and the byte budget *)

Lemma sum_bytes_nonneg (sizes : list Z) :
  Forall (λ b, 0 ≤ b) sizes → 0 ≤ sum_bytes sizes.
Proof.
  induction 1 as [| b rest Hb _ IH]; simpl; [done |].
  unfold sum_bytes in *. simpl. lia.
Qed.

(** X14.  For a table whose memory usage has no negative entry, the
    partition count [n] of [dask_from_pandas] is at least 1 and is the one
    count with [(n - 1) * MAX_PARTITION_BYTE_SIZE <= total_bytes <
    n * MAX_PARTITION_BYTE_SIZE]: the bytes per partition, on average, stay
    below the budget, and one partition fewer would not do that unless the
    table is below the budget already. *)
Theorem dask_from_pandas_respects_budget
        (memory_usage_deep : frame_t → list Z) (df : frame_t) :
  Forall (λ b, 0 ≤ b) (memory_usage_deep df) →
  1 ≤ npartitions (dask_from_pandas memory_usage_deep df)
  ∧ (npartitions (dask_from_pandas memory_usage_deep df) - 1)
    * MAX_PARTITION_BYTE_SIZE ≤ total_bytes memory_usage_deep df
  ∧ total_bytes memory_usage_deep df
    < npartitions (dask_from_pandas memory_usage_deep df)
      * MAX_PARTITION_BYTE_SIZE
  ∧ (∀ n, (n - 1) * MAX_PARTITION_BYTE_SIZE ≤ total_bytes memory_usage_deep df
          → total_bytes memory_usage_deep df < n * MAX_PARTITION_BYTE_SIZE
          → n = npartitions (dask_from_pandas memory_usage_deep df)).
Proof.
  intros Hnn. apply sum_bytes_nonneg in Hnn.
  rewrite dask_from_pandas_npartitions.
  fold (total_bytes memory_usage_deep df) in Hnn.
  revert Hnn. generalize (total_bytes memory_usage_deep df). intros total Hnn.
  rewrite MAX_PARTITION_BYTE_SIZE_value.
  pose proof (Z.div_mod total 104857600 ltac:(lia)) as Hdm.
  pose proof (Z.mod_pos_bound total 104857600 ltac:(lia)) as Hmod.
  assert (0 ≤ total `div` 104857600) by (apply Z.div_pos; lia).
  repeat split; lia.
Qed.

Lemma dask_from_pandas_respects_budget_witness :
  1 ≤ npartitions (dask_from_pandas (λ _, [128; 104857600; 52428800])
                     ReferenceCast.table)
  ∧ npartitions (dask_from_pandas (λ _, [128; 104857600; 52428800])
                   ReferenceCast.table) = 2.
Proof.
  split; [| reflexivity].
  apply (dask_from_pandas_respects_budget
           (λ _, [128; 104857600; 52428800]) ReferenceCast.table).
  repeat constructor; lia.
Defined.

(** X15.  More bytes never give fewer partitions. *)
Theorem dask_from_pandas_monotone
        (memory_usage_deep : frame_t → list Z) (df1 df2 : frame_t) :
  total_bytes memory_usage_deep df1 ≤ total_bytes memory_usage_deep df2 →
  npartitions (dask_from_pandas memory_usage_deep df1)
  ≤ npartitions (dask_from_pandas memory_usage_deep df2).
Proof.
  intros Hle. rewrite !dask_from_pandas_npartitions.
  rewrite MAX_PARTITION_BYTE_SIZE_value.
  assert (total_bytes memory_usage_deep df1 `div` 104857600
          ≤ total_bytes memory_usage_deep df2 `div` 104857600)
    by (apply Z.div_le_mono; lia).
  lia.
Qed.

Lemma dask_from_pandas_monotone_witness :
  npartitions (dask_from_pandas (λ df : frame_t, [128 * Z.of_nat (size df)]) ∅)
  ≤ npartitions (dask_from_pandas (λ df : frame_t, [128 * Z.of_nat (size df)])
                   ReferenceCast.table).
Proof.
  apply (dask_from_pandas_monotone
           (λ df : frame_t, [128 * Z.of_nat (size df)]) ∅ ReferenceCast.table).
  vm_compute. discriminate.
Defined.

(** ** Repository path warning *)

(** X16.  [warn_for_repo_path] issues one warning exactly when [repo_path]
    is [None] and the platform check answers true, and none otherwise; the
    warning is a [SyntaxWarning] at stack level 2 that names the calling
    function, or has the text without a name when the stack cannot be
    read.  With a [repo_path] the platform check is not consulted: the
    call returns whatever the check would give or raise.  An exception of
    the check itself is the outcome of the call. *)
Theorem warn_for_repo_path_spec
        (user_project_platform_activated : result bool)
        (caller_name : result string) (repo_path : option string) :
  ((∃ w, warn_for_repo_path user_project_platform_activated caller_name
           repo_path = Ok [w])
   ↔ repo_path = None ∧ user_project_platform_activated = Ok true)
  ∧ (∀ ws, warn_for_repo_path user_project_platform_activated caller_name
             repo_path = Ok ws →
       (length ws ≤ 1)%nat
       ∧ ∀ w, w ∈ ws → category w = "SyntaxWarning" ∧ stacklevel w = 2)
  ∧ (∀ path check,
       warn_for_repo_path check caller_name (Some path) = Ok [])
  ∧ (∀ name, repo_path = None →
       user_project_platform_activated = Ok true → caller_name = Ok name →
       warn_for_repo_path user_project_platform_activated caller_name
         repo_path
       = Ok [Warning (("repo_path argument in " +:+ name
                       +:+ " must be provided.")
                      +:+ " Some functionalities may not work as expected")
                     "SyntaxWarning" 2])
  ∧ (∀ e, repo_path = None →
       user_project_platform_activated = Ok true → caller_name = Raise e →
       warn_for_repo_path user_project_platform_activated caller_name
         repo_path
       = Ok [Warning ("repo_path argument must be provided."
                      +:+ " Some functionalities may not work as expected")
                     "SyntaxWarning" 2])
  ∧ (∀ e, repo_path = None → user_project_platform_activated = Raise e →
       warn_for_repo_path user_project_platform_activated caller_name
         repo_path = Raise e).
Proof.
  unfold warn_for_repo_path, try_except.
  split; [| split; [| split; [| split; [| split]]]].
  - destruct repo_path as [path |]; simpl.
    { split; [by intros (w & [=]) | by intros [[=] _]]. }
    destruct user_project_platform_activated as [[|] | e]; simpl.
    + split; [done |]. intros _. destruct caller_name; simpl; by eexists.
    + split; [by intros (w & [=]) | by intros [_ [=]]].
    + split; [by intros (w & [=]) | by intros [_ [=]]].
  - intros ws. destruct repo_path as [path |]; simpl.
    { intros [= <-]. split; [simpl; lia |]. intros w Hw. inversion Hw. }
    destruct user_project_platform_activated as [[|] | e]; simpl; [| | done].
    + destruct caller_name; simpl; intros [= <-]; (split; [simpl; lia |]);
        intros w Hw; by apply list_elem_of_singleton in Hw as ->.
    + intros [= <-]. split; [simpl; lia |]. intros w Hw. inversion Hw.
  - reflexivity.
  - intros name -> -> ->. reflexivity.
  - intros e -> -> ->. reflexivity.
  - intros e -> ->. reflexivity.
Qed.

(** ** Rows already decoded, and tables put together *)

(** X17.  [deserialize_columns] may be applied to a row that is decoded
    already: when no column with a JSON tag holds a string or a numpy
    array, the row is returned as it is, and the decoder is not called. *)
Theorem deserialize_columns_on_decoded_row
        (simplejson_loads : string → result value)
        (T : column_types_t) (R : row_t) :
  (∀ c tag, (c, tag) ∈ T → tag ∈ JSON_SERIALIZABLE_COLUMN_TYPES →
     ∃ val, R !! c = Some val
            ∧ (∀ s, val ≠ VStr s) ∧ (∀ xs, val ≠ VNdarray xs)) →
  deserialize_columns simplejson_loads R T = Ok R.
Proof.
  intros Hall. apply for_items_skips. intros [c tag] Hin.
  rewrite deserialize_column_unfold.
  destruct (tag_in tag JSON_SERIALIZABLE_COLUMN_TYPES) eqn:Htag;
    [| reflexivity].
  apply tag_in_spec in Htag.
  destruct (Hall c tag Hin Htag) as (val & -> & Hstr & Harr).
  destruct val; try reflexivity.
  - by destruct (Hstr s).
  - by destruct (Harr xs).
Qed.

Lemma deserialize_columns_on_decoded_row_witness :
  deserialize_columns RejectingCodec.loads Samples.row Samples.column_types
  = Ok Samples.row.
Proof.
  apply (deserialize_columns_on_decoded_row RejectingCodec.loads
           Samples.column_types Samples.row).
  intros c tag Hin Htag. apply JSON_tags in Htag.
  unfold Samples.column_types in Hin.
  repeat (apply elem_of_cons in Hin as [[= -> ->] | Hin]);
    try (destruct Htag; discriminate); try (by apply elem_of_nil in Hin);
    eexists; (split; [vm_compute; reflexivity |]); split; discriminate.
Defined.

Lemma any_serialize_tag_app (T T' : column_types_t) :
  any_serialize_tag (T ++ T') = any_serialize_tag T || any_serialize_tag T'.
Proof.
  induction T as [| [c tag] rest IH]; simpl; [done |].
  by destruct (tag_in tag JSON_SERIALIZABLE_COLUMN_TYPES
               || tag_in tag STRING_SERIALIZABLE_COLUMN_TYPES).
Qed.

Lemma any_deserialize_tag_app (T T' : column_types_t) :
  any_deserialize_tag (T ++ T') = any_deserialize_tag T || any_deserialize_tag T'.
Proof.
  induction T as [| [c tag] rest IH]; simpl; [done |].
  by destruct (tag_in tag JSON_SERIALIZABLE_COLUMN_TYPES).
Qed.

(** X18.  The predicates look at the tags only, one item at a time: of
    two tables put together each answers true exactly when it does of one
    of them, and the order of the items does not matter. *)
Theorem should_transcode_of_joined_tables (T T' : column_types_t) :
  should_serialize_pandas (T ++ T')
  = should_serialize_pandas T || should_serialize_pandas T'
  ∧ should_deserialize_pandas (T ++ T')
    = should_deserialize_pandas T || should_deserialize_pandas T'
  ∧ (T ≡ₚ T' →
     should_serialize_pandas T = should_serialize_pandas T'
     ∧ should_deserialize_pandas T = should_deserialize_pandas T').
Proof.
  rewrite !should_serialize_any, !should_deserialize_any.
  split; [apply any_serialize_tag_app |].
  split; [apply any_deserialize_tag_app |].
  intros Hperm. split.
  - apply eq_true_iff_eq. rewrite !any_serialize_tag_iff.
    by setoid_rewrite Hperm.
  - apply eq_true_iff_eq. rewrite !any_deserialize_tag_iff.
    by setoid_rewrite Hperm.
Qed.
